(** * AstraAI: the study assistant's parser, quiz session and chat context

    A shallow embedding of [astra_ai.py] and of the upload handler of
    [streamlit_app.py].  A Python [str] is a sequence of Unicode code
    points.  White space is the set of characters that [str.strip] and
    [str.split] remove; the digits and the case mappings of the
    characters above 127 are tables of the Python run time, taken as
    parameters, and so is the markup check of the rich console that the
    error handlers print to.  Dictionaries with string keys are [gmap].
    An operation that may raise returns an [outcome], which is a value
    or the message of the exception; the language model and the file
    readers, which the class only calls, are parameters too. *)

From Stdlib Require Import NArith ZArith Lia Strings.Byte.
From stdpp Require Import base option list countable gmap.

Local Open Scope Z_scope.

(** ** Python strings *)

(** A [str]: its code points, in order. *)
Inductive str : Type :=
| EmptyStr
| Str (c : N) (s : str).

(** The code points of a UTF-8 byte sequence: how a string literal of
    this file is read. *)
Fixpoint utf8_decode (bytes : list N) : str :=
  match bytes with
  | [] => EmptyStr
  | b0 :: rest =>
      if (b0 <? 128)%N then Str b0 (utf8_decode rest)
      else if (b0 <? 224)%N then
        match rest with
        | b1 :: rest1 =>
            Str ((b0 - 192) * 64 + (b1 - 128))%N (utf8_decode rest1)
        | _ => Str b0 (utf8_decode rest)
        end
      else if (b0 <? 240)%N then
        match rest with
        | b1 :: b2 :: rest2 =>
            Str ((b0 - 224) * 4096 + (b1 - 128) * 64 + (b2 - 128))%N
              (utf8_decode rest2)
        | _ => Str b0 (utf8_decode rest)
        end
      else
        match rest with
        | b1 :: b2 :: b3 :: rest3 =>
            Str ((b0 - 240) * 262144 + (b1 - 128) * 4096
                 + (b2 - 128) * 64 + (b3 - 128))%N
              (utf8_decode rest3)
        | _ => Str b0 (utf8_decode rest)
        end
  end.

Definition str_of_bytes (bytes : list Byte.byte) : str :=
  utf8_decode (Byte.to_N <$> bytes).

(** An ASCII [str] is shown as a literal. *)
Fixpoint bytes_of_str (s : str) : option (list Byte.byte) :=
  match s with
  | EmptyStr => Some []
  | Str c r =>
      if (c <? 128)%N then
        match Byte.of_N c, bytes_of_str r with
        | Some b, Some bs => Some (b :: bs)
        | _, _ => None
        end
      else None
  end.

Declare Scope str_scope.
Delimit Scope str_scope with str.
Bind Scope str_scope with str.
String Notation str str_of_bytes bytes_of_str : str_scope.
Open Scope str_scope.

Fixpoint str_to_list (s : str) : list N :=
  match s with
  | EmptyStr => []
  | Str c r => c :: str_to_list r
  end.

Fixpoint list_to_str (l : list N) : str :=
  match l with
  | [] => EmptyStr
  | c :: r => Str c (list_to_str r)
  end.

#[global] Instance str_eq_dec : EqDecision str.
Proof. solve_decision. Defined.

#[global] Program Instance str_countable : Countable str :=
  inj_countable' str_to_list list_to_str _.
Next Obligation. intros s. induction s as [|c s IH]; [done|]. simpl. by rewrite IH. Qed.

(** The tables of the Python run time for the characters above 127:
    [str.isdigit] of a character, its upper-case mapping, and its
    lower-case mapping between the text before it and the text after it
    (the mapping of a capital sigma depends on them). *)
Class Unicode : Type := {
  unicode_isdigit : N → bool;
  unicode_upper : N → str;
  unicode_lower : str → N → str → str
}.

(** The markup check of [rich]: the message of the [MarkupError] that
    [Console.print] raises on a text, if it raises. *)
Class Rich : Type := {
  markup_error : str → option str
}.

Module PyStr.

(** [s1 + s2] *)
Fixpoint append (s1 s2 : str) : str :=
  match s1 with
  | EmptyStr => s2
  | Str c r => Str c (append r s2)
  end.

(** [len(s)] *)
Fixpoint len (s : str) : nat :=
  match s with
  | EmptyStr => O
  | Str _ r => S (len r)
  end.

(** [sep.join(parts)] *)
Fixpoint join (sep : str) (parts : list str) : str :=
  match parts with
  | [] => EmptyStr
  | [x] => x
  | x :: rest => append x (append sep (join sep rest))
  end.

(** The white space of [str.strip], [str.split] and [str.isspace]:
    U+0009..000D, U+001C..0020, U+0085, U+00A0, U+1680, U+2000..200A,
    U+2028, U+2029, U+202F, U+205F and U+3000. *)
Definition isspace (c : N) : bool :=
  ((9 <=? c) && (c <=? 13)
   || (28 <=? c) && (c <=? 32)
   || (c =? 133) || (c =? 160) || (c =? 5760)
   || (8192 <=? c) && (c <=? 8202)
   || (c =? 8232) || (c =? 8233) || (c =? 8239) || (c =? 8287)
   || (c =? 12288))%N.

Definition ascii_upper (c : N) : N :=
  if ((97 <=? c) && (c <=? 122))%N then (c - 32)%N else c.

Definition ascii_lower (c : N) : N :=
  if ((65 <=? c) && (c <=? 90))%N then (c + 32)%N else c.

Section Tables.

Context {tables : Unicode}.

(** [str.isdigit] on one character. *)
Definition isdigit (c : N) : bool :=
  if (c <? 128)%N then ((48 <=? c) && (c <=? 57))%N else unicode_isdigit c.

(** [s.upper()] *)
Fixpoint upper (s : str) : str :=
  match s with
  | EmptyStr => EmptyStr
  | Str c r =>
      append (if (c <? 128)%N then Str (ascii_upper c) EmptyStr else unicode_upper c)
        (upper r)
  end.

(** [s.lower()], with the text already passed.  White space has no case. *)
Fixpoint lower_from (before s : str) : str :=
  match s with
  | EmptyStr => EmptyStr
  | Str c r =>
      append
        (if (c <? 128)%N then Str (ascii_lower c) EmptyStr
         else if isspace c then Str c EmptyStr
         else unicode_lower before c r)
        (lower_from (append before (Str c EmptyStr)) r)
  end.

Definition lower (s : str) : str := lower_from EmptyStr s.

End Tables.

(** [s.lstrip()], [s.rstrip()] and [s.strip()]. *)
Fixpoint lstrip (s : str) : str :=
  match s with
  | EmptyStr => EmptyStr
  | Str c s' => if isspace c then lstrip s' else s
  end.

Fixpoint rstrip (s : str) : str :=
  match s with
  | EmptyStr => EmptyStr
  | Str c s' =>
      match rstrip s' with
      | EmptyStr => if isspace c then EmptyStr else Str c EmptyStr
      | r => Str c r
      end
  end.

Definition strip (s : str) : str := lstrip (rstrip s).

(** Truth value of a string: [bool(s)], false for the empty string. *)
Definition truthy (s : str) : bool :=
  match s with EmptyStr => false | Str _ _ => true end.

(** [s.startswith(p)]. *)
Fixpoint startswith (p s : str) : bool :=
  match p, s with
  | EmptyStr, _ => true
  | Str a p', Str b s' => if (a =? b)%N then startswith p' s' else false
  | Str _ _, EmptyStr => false
  end.

(** [s.endswith(p)]. *)
Fixpoint endswith (p s : str) : bool :=
  bool_decide (s = p)
  || match s with
     | EmptyStr => false
     | Str _ s' => endswith p s'
     end.

(** [s[n:]] and [s[:n]] for a natural [n]. *)
Fixpoint drop (n : nat) (s : str) : str :=
  match n, s with
  | O, _ => s
  | S n', Str _ s' => drop n' s'
  | S _, EmptyStr => EmptyStr
  end.

Fixpoint take (n : nat) (s : str) : str :=
  match n, s with
  | S n', Str c s' => Str c (take n' s')
  | _, _ => EmptyStr
  end.

(** [s.split(sep, 1)] for a non-empty [sep]: the text before and after
    the leftmost occurrence of [sep], or [None] when [sep] does not
    occur (Python then returns the one-element list [[s]]). *)
Fixpoint split_once (sep s : str) : option (str * str) :=
  if startswith sep s then Some (EmptyStr, drop (len sep) s)
  else match s with
       | EmptyStr => None
       | Str c s' =>
           match split_once sep s' with
           | Some (a, b) => Some (Str c a, b)
           | None => None
           end
       end.

(** [sep in s]. *)
Definition contains (sep s : str) : bool :=
  match split_once sep s with Some _ => true | None => false end.

(** [c in chars] for a one-character string [c]. *)
Fixpoint char_in (c : N) (chars : str) : bool :=
  match chars with
  | EmptyStr => false
  | Str d r => if (c =? d)%N then true else char_in c r
  end.

(** [s.split(sep)] for a one-character separator. *)
Fixpoint split_char (sep : N) (s : str) : list str :=
  match s with
  | EmptyStr => [EmptyStr]
  | Str c s' =>
      if (c =? sep)%N then EmptyStr :: split_char sep s'
      else match split_char sep s' with
           | h :: t => Str c h :: t
           | [] => [Str c EmptyStr]
           end
  end.

(** [s.split()]: the maximal runs of characters that are not white
    space, in order. *)
Fixpoint split_ws (s : str) : list str :=
  match s with
  | EmptyStr => []
  | Str c s' =>
      if isspace c then split_ws s'
      else match s' with
           | EmptyStr => [Str c EmptyStr]
           | Str c' _ =>
               if isspace c' then Str c EmptyStr :: split_ws s'
               else match split_ws s' with
                    | w :: ws => Str c w :: ws
                    | [] => [Str c EmptyStr]
                    end
           end
  end.

(** The line feed. *)
Definition LF : N := 10%N.

End PyStr.

Arguments PyStr.append : simpl never.
Infix "+:+" := PyStr.append (at level 60, right associativity) : str_scope.

(** ** Sample tables and consoles *)

(** Tables in which no character above 127 is a digit or has a case: they
    agree with those of Python on ASCII text. *)
Definition plain_tables : Unicode :=
  {| unicode_isdigit := λ _, false;
     unicode_upper := λ c, Str c EmptyStr;
     unicode_lower := λ _ c _, Str c EmptyStr |}.

(** A console that prints every text. *)
Definition lenient_console : Rich :=
  {| markup_error := λ _, None |}.

(** A console that refuses a text in which a closing tag occurs before
    the closing tag of the whole markup. *)
Definition strict_console : Rich :=
  {| markup_error markup :=
       if PyStr.contains "[/" (PyStr.take (PyStr.len markup - 6) markup)
       then Some "closing tag does not match any open tag"
       else None |}.

(** ** Exceptions *)

(** The result of running Python code that may raise: the value it
    returns, or the text [str(e)] of the exception it raises. *)
Inductive outcome (A : Type) : Type :=
| Return (a : A)
| Raise (msg : str).
Arguments Return {A} a.
Arguments Raise {A} msg.

#[global] Instance outcome_bind : MBind outcome := fun A B k m =>
  match m with
  | Return a => k a
  | Raise e => Raise e
  end.

(** [l[i]] on a Python list: a negative index counts from the end. *)
Definition index_list {A : Type} (l : list A) (i : Z) : outcome A :=
  let n := Z.of_nat (length l) in
  let j := if i <? 0 then i + n else i in
  if (0 <=? j) && (j <? n) then
    match l !! Z.to_nat j with
    | Some a => Return a
    | None => Raise "list index out of range"
    end
  else Raise "list index out of range".

(** ** Data model *)

(** The dictionary of one quiz question, as the parser builds it:
    ['correct'] and ['explanation'] start as [None]. *)
Record QuizQuestion : Type := mkQuestion {
  question : str;
  options : gmap str str;
  correct : option str;
  explanation : option str
}.

(** One chat message, [{"role": ..., "content": ...}]. *)
Record message : Type := mkMessage {
  role : str;
  content : str
}.

(** The attributes of an [AstraAI] object.  [_answer_history] is the
    attribute that [_calculate_current_streak] probes with [hasattr]:
    [None] says that the object has no such attribute.  [console]
    holds no state of the assistant: what printing to it does is the
    class [Rich]. *)
Record AstraAI : Type := mkAstra {
  model : str;
  conversation_active : bool;
  chat_history : list message;
  context : str;
  document_name : option str;
  quiz_active : bool;
  current_quiz : list QuizQuestion;
  quiz_progress : Z;
  quiz_score : Z;
  total_questions : Z;
  last_error : option str;
  _answer_history : option (list bool)
}.

(** [AstraAI.__init__] *)
Definition init : AstraAI :=
  {| model := "llama3.2";
     conversation_active := true;
     chat_history := [];
     context := "";
     document_name := None;
     quiz_active := false;
     current_quiz := [];
     quiz_progress := 0;
     quiz_score := 0;
     total_questions := 0;
     last_error := None;
     _answer_history := None |}.

(** The dictionary returned by [get_quiz_status], without its
    ['percentage'] entry, which is a rounded float. *)
Module Status.
Record t : Type := mk {
  active : bool;
  progress : Z;
  total_questions : Z;
  score : Z;
  remaining : Z;
  current_streak : Z
}.
End Status.

(** An uploaded file of Streamlit, as [handle_file_upload] reads it. *)
Module UploadedFile.
Record t : Type := mk {
  name : str;
  size : Z
}.
End UploadedFile.

(** * The program *)

Section Program.

Context {tables : Unicode} {console : Rich}.

(** ** The console *)

(** A text of ASCII characters without a square bracket. *)
Fixpoint markup_free (text : str) : bool :=
  match text with
  | EmptyStr => true
  | Str c r => (c <? 128)%N && negb (c =? 91)%N && markup_free r
  end.

(** [self.console.print(f"[red]{text}[/red]")].  The console reads
    square brackets as markup, and raises on a closing tag that closes
    nothing.  A text without a square bracket adds no tag: the markup is
    balanced, and ASCII text is written under every encoding of the
    output, so the text is printed.  What happens on another text is
    the parameter [markup_error]. *)
Definition print_red (text : str) : outcome unit :=
  if markup_free text then Return tt
  else match markup_error ("[red]" +:+ text +:+ "[/red]") with
       | Some e => Raise e
       | None => Return tt
       end.

(** ** The quiz response parser *)

(** Truth value of a field that holds [None] or a string. *)
Definition truthy_opt (o : option str) : bool :=
  match o with
  | Some s => PyStr.truthy s
  | None => false
  end.

Definition labels : list str := ["A"; "B"; "C"; "D"].

(** [_validate_question]: the dictionaries built by the parser always
    carry the four required fields, so the first test never fails. *)
Definition _validate_question (q : QuizQuestion) : bool :=
  if negb (forallb (fun opt => bool_decide (is_Some (options q !! opt))) labels)
  then false
  else if negb (match correct q with
                | Some c => bool_decide (c ∈ labels)
                | None => false
                end)
  then false
  else if negb (PyStr.truthy (question q)) || negb (truthy_opt (explanation q))
  then false
  else true.

(** The two local variables of the parsing loop: the list [questions]
    and [current_question].  An appended dictionary is never written
    again, because [current_question] is rebound right after each
    [append]; so the list can hold values. *)
Definition parser_state : Type := list QuizQuestion * option QuizQuestion.

Definition set_option (k v : str) (q : QuizQuestion) : QuizQuestion :=
  {| question := question q; options := <[k := v]> (options q);
     correct := correct q; explanation := explanation q |}.

Definition set_correct (v : str) (q : QuizQuestion) : QuizQuestion :=
  {| question := question q; options := options q;
     correct := Some v; explanation := explanation q |}.

Definition set_explanation (v : str) (q : QuizQuestion) : QuizQuestion :=
  {| question := question q; options := options q;
     correct := correct q; explanation := Some v |}.

(** [line.split(sep, 1)[1]] *)
Definition split_snd (sep line : str) : outcome str :=
  match PyStr.split_once sep line with
  | Some (_, b) => Return b
  | None => Raise "list index out of range"
  end.

(** [a, b = line.split(sep, 1)] *)
Definition split_pair (sep line : str) : outcome (str * str) :=
  match PyStr.split_once sep line with
  | Some p => Return p
  | None => Raise "not enough values to unpack (expected 2, got 1)"
  end.

(** The body of the [for line in lines] loop. *)
Definition parse_line (st : parser_state) (raw : str) : outcome parser_state :=
  let '(questions, current_question) := st in
  let line := PyStr.strip raw in
  match line with
  | EmptyStr => Return st
  | Str c0 _ =>
      if PyStr.isdigit c0 && PyStr.contains ". " line then
        prompt ← split_snd ". " line;
        Return (questions ++ option_list current_question,
                Some {| question := prompt; options := ∅;
                        correct := None; explanation := None |})
      else if PyStr.char_in c0 "ABCD" && PyStr.contains ") " line then
        p ← split_pair ") " line;
        Return (questions, set_option p.1 (PyStr.strip p.2) <$> current_question)
      else if PyStr.startswith "CORRECT:" line then
        match current_question with
        | Some q =>
            v ← split_snd ":" line;
            Return (questions, Some (set_correct (PyStr.strip v) q))
        | None => Return st
        end
      else if PyStr.startswith "EXPLANATION:" line then
        match current_question with
        | Some q =>
            v ← split_snd ":" line;
            Return (questions ++ [set_explanation (PyStr.strip v) q], None)
        | None => Return st
        end
      else Return st
  end.

Fixpoint parse_lines (st : parser_state) (lines : list str) : outcome parser_state :=
  match lines with
  | [] => Return st
  | l :: rest => st' ← parse_line st l; parse_lines st' rest
  end.

(** The statement after the loop: the last question is added when it is
    open and its explanation is set. *)
Definition flush_last (st : parser_state) : list QuizQuestion :=
  match st with
  | (questions, Some q) =>
      if truthy_opt (explanation q) then questions ++ [q] else questions
  | (questions, None) => questions
  end.

(** The [try] block of [_parse_quiz_response], before validation. *)
Definition parse_candidates (response_text : str) : outcome (list QuizQuestion) :=
  let lines := PyStr.split_char PyStr.LF (PyStr.strip response_text) in
  st ← parse_lines ([], None) lines;
  Return (flush_last st).

(** [_parse_quiz_response]: any exception yields the empty list.  The
    handler also prints the exception; [parse_candidates_total] shows
    that the [try] block raises on no text, so it is never entered. *)
Definition _parse_quiz_response (response_text : str) : list QuizQuestion :=
  match parse_candidates response_text with
  | Return questions => filter (fun q => _validate_question q = true) questions
  | Raise _ => []
  end.

(** ** Attribute updates *)

Definition set_quiz (a : bool) (qs : list QuizQuestion) (p sc t : Z)
    (self : AstraAI) : AstraAI :=
  {| model := model self;
     conversation_active := conversation_active self;
     chat_history := chat_history self;
     context := context self;
     document_name := document_name self;
     quiz_active := a;
     current_quiz := qs;
     quiz_progress := p;
     quiz_score := sc;
     total_questions := t;
     last_error := last_error self;
     _answer_history := _answer_history self |}.

Definition set_last_error (e : option str) (self : AstraAI) : AstraAI :=
  {| model := model self;
     conversation_active := conversation_active self;
     chat_history := chat_history self;
     context := context self;
     document_name := document_name self;
     quiz_active := quiz_active self;
     current_quiz := current_quiz self;
     quiz_progress := quiz_progress self;
     quiz_score := quiz_score self;
     total_questions := total_questions self;
     last_error := e;
     _answer_history := _answer_history self |}.

Definition set_conversation (a : bool) (h : list message) (ctx : str)
    (d : option str) (self : AstraAI) : AstraAI :=
  {| model := model self;
     conversation_active := a;
     chat_history := h;
     context := ctx;
     document_name := d;
     quiz_active := quiz_active self;
     current_quiz := current_quiz self;
     quiz_progress := quiz_progress self;
     quiz_score := quiz_score self;
     total_questions := total_questions self;
     last_error := last_error self;
     _answer_history := _answer_history self |}.

Definition set_conversation_active (a : bool) (self : AstraAI) : AstraAI :=
  set_conversation a (chat_history self) (context self) (document_name self) self.

Definition set_chat_history (h : list message) (self : AstraAI) : AstraAI :=
  set_conversation (conversation_active self) h (context self) (document_name self) self.

Definition set_document_name (d : option str) (self : AstraAI) : AstraAI :=
  set_conversation (conversation_active self) (chat_history self) (context self) d self.

(** The assignment [astra.context = content] made by the caller of
    [load_document]. *)
Definition set_context (ctx : str) (self : AstraAI) : AstraAI :=
  set_conversation (conversation_active self) (chat_history self) ctx
    (document_name self) self.

(** ** The quiz session *)

(** [end_quiz] *)
Definition end_quiz (self : AstraAI) : AstraAI :=
  set_quiz false [] 0 0 0 self.

(** [generate_quiz].  [reply] is the outcome of the one call
    [ollama.chat(...)['message']['content']] made with the quiz prompt;
    [num_questions] only occurs in the text of that prompt.  The result
    is the object afterwards and what the call returns or raises: the
    handler prints after it has recorded the error. *)
Definition generate_quiz (self : AstraAI) (num_questions : Z)
    (reply : outcome str) : AstraAI * outcome bool :=
  if negb (PyStr.truthy (context self)) then
    (set_last_error (Some "No document loaded for quiz generation") self,
     Return false)
  else
    match reply with
    | Return text =>
        let quiz_questions := _parse_quiz_response text in
        match quiz_questions with
        | [] =>
            (set_last_error (Some "Failed to generate valid quiz questions") self,
             Return false)
        | _ :: _ =>
            (set_quiz true quiz_questions 0 0
               (Z.of_nat (length quiz_questions)) self, Return true)
        end
    | Raise e =>
        (set_last_error (Some ("Quiz generation error: " +:+ e)) self,
         _ ← print_red ("Error generating quiz: " +:+ e); Return false)
    end.

(** [get_current_question]: the dictionary it returns has the four
    fields of the stored question. *)
Definition get_current_question (self : AstraAI) : outcome (option QuizQuestion) :=
  if negb (quiz_active self)
     || (Z.of_nat (length (current_quiz self)) <=? quiz_progress self)
  then Return None
  else
    q ← index_list (current_quiz self) (quiz_progress self);
    Return (Some q).

(** A value that is [None] or a string, inside an f-string. *)
Definition format_opt (o : option str) : str :=
  match o with
  | Some s => s
  | None => "None"
  end.

(** [submit_answer] *)
Definition submit_answer (self : AstraAI) (answer : str)
    : outcome (AstraAI * (bool * str)) :=
  if negb (quiz_active self) then Return (self, (false, "No quiz is active"))
  else
    cq ← get_current_question self;
    match cq with
    | None => Return (self, (false, "No current question"))
    | Some current_question =>
        let answer := PyStr.upper answer in
        if negb (bool_decide (answer ∈ labels)) then
          Return (self, (false, "Invalid answer option"))
        else
          let is_correct := bool_decide (Some answer = correct current_question) in
          let score := if is_correct then quiz_score self + 1 else quiz_score self in
          let progress := quiz_progress self + 1 in
          let active :=
            if total_questions self <=? progress then false else quiz_active self in
          let feedback := format_opt (explanation current_question) in
          let feedback :=
            if is_correct then "✅ Correct! " +:+ feedback
            else "❌ Incorrect. The correct answer was "
                 +:+ format_opt (correct current_question) +:+ ". " +:+ feedback in
          Return (set_quiz active (current_quiz self) progress score
                    (total_questions self) self,
                  (is_correct, feedback))
    end.

(** [range(n - 1, -1, -1)] *)
Definition range_down (n : Z) : list Z :=
  map (fun k => n - 1 - Z.of_nat k) (seq 0 (Z.to_nat n)).

(** The loop of [_calculate_current_streak] over the remaining indices
    [indices].  The index is used only under the guard [len > i], and it is
    never negative, so [_answer_history[i]] does not raise. *)
Fixpoint streak_loop (history : option (list bool)) (indices : list Z) (streak : Z) : Z :=
  match indices with
  | [] => streak
  | i :: rest =>
      match history with
      | Some h =>
          if i <? Z.of_nat (length h) then
            match h !! Z.to_nat i with
            | Some true => streak_loop history rest (streak + 1)
            | _ => streak
            end
          else streak
      | None => streak
      end
  end.

(** [_calculate_current_streak] *)
Definition _calculate_current_streak (self : AstraAI) : Z :=
  streak_loop (_answer_history self) (range_down (quiz_progress self)) 0.

(** [get_quiz_status] *)
Definition get_quiz_status (self : AstraAI) : Status.t :=
  {| Status.active := quiz_active self;
     Status.progress := quiz_progress self;
     Status.total_questions := total_questions self;
     Status.score := quiz_score self;
     Status.remaining :=
       if quiz_active self then total_questions self - quiz_progress self else 0;
     Status.current_streak := _calculate_current_streak self |}.

(** ** The chat turn *)

Definition end_phrases : list str := ["goodbye"; "bye"; "exit"; "quit"; "end"].

(** [_should_end_conversation] *)
Definition _should_end_conversation (question : str) : bool :=
  existsb
    (fun phrase => bool_decide (phrase ∈ PyStr.split_ws (PyStr.lower question)))
    end_phrases.

Definition system_message : message :=
  {| role := "system";
     content := "You are ASTRA AI, a helpful study assistant. Keep responses concise and relevant.
            If a document is loaded, use its content to provide accurate answers. Maintain a friendly and
            educational tone while being precise and informative." |}.

(** [l[-n:]] for a positive [n]. *)
Definition last_n {A : Type} (n : nat) (l : list A) : list A :=
  drop (length l - n)%nat l.

Definition newline : str := Str PyStr.LF EmptyStr.

(** [_prepare_messages] *)
Definition _prepare_messages (self : AstraAI) (question : str) : list message :=
  let max_context := 1500%nat in
  let context_preview :=
    if PyStr.truthy (context self) then PyStr.take max_context (context self)
    else "" in
  let messages := [system_message] in
  let messages := messages ++ last_n 3 (chat_history self) in
  let messages :=
    if PyStr.truthy context_preview && truthy_opt (document_name self) then
      messages ++
      [{| role := "system";
          content := "Using content from document: "
                     +:+ format_opt (document_name self)
                     +:+ newline +:+ newline +:+ context_preview |}]
    else messages in
  messages ++ [{| role := "user"; content := question |}].

(** [_update_chat_history] *)
Definition _update_chat_history (self : AstraAI) (question response : str) : AstraAI :=
  if PyStr.truthy (PyStr.strip question) && PyStr.truthy (PyStr.strip response) then
    set_chat_history
      (chat_history self
       ++ [{| role := "user"; content := question |};
           {| role := "assistant"; content := response |}]) self
  else self.

Definition farewell : str :=
  "Goodbye! Feel free to start a new conversation when you need help!".

Definition apology : str :=
  "I apologize, but I encountered an error processing your question. Please try again.".

(** The result of [ask_question]: the object afterwards, the text that
    the call returns or the exception that it raises, and the message
    lists sent to the model during the call. *)
Record asked : Type := mkAsked {
  after : AstraAI;
  answer_text : outcome str;
  model_calls : list (list message)
}.

Section Chat.

(** The inference call [ollama.chat(...)['message']['content']] for the
    chat options: the completion, or the exception it raises. *)
Variable complete : list message -> outcome str.

(** [_generate_response] *)
Definition _generate_response (messages : list message) : outcome str :=
  match complete messages with
  | Return text => Return text
  | Raise e => Raise ("Error generating response: " +:+ e)
  end.

(** [ask_question].  The handler records the error, prints it and then
    returns the apology. *)
Definition ask_question (self : AstraAI) (question : str) : asked :=
  if negb (PyStr.truthy (PyStr.strip question)) then
    {| after := self; answer_text := Return "Please ask a valid question.";
       model_calls := [] |}
  else if _should_end_conversation question then
    {| after := set_conversation_active false self;
       answer_text := Return farewell;
       model_calls := [] |}
  else
    let messages := _prepare_messages self question in
    match _generate_response messages with
    | Return response =>
        {| after := _update_chat_history self question response;
           answer_text := Return response;
           model_calls := [messages] |}
    | Raise e =>
        {| after := set_last_error (Some e) self;
           answer_text := (_ ← print_red ("Error: " +:+ e); Return apology);
           model_calls := [messages] |}
    end.

End Chat.

(** [reset_conversation] *)
Definition reset_conversation (self : AstraAI) : AstraAI :=
  set_last_error None (end_quiz (set_conversation true [] "" None self)).

(** ** Loading a document *)

(** What [open(path, 'r', encoding=e).read()] does. *)
Inductive text_read : Type :=
| TextOk (text : str)
| UnicodeDecodeError
| OtherError (msg : str).

(** The files, as the three readers see them. *)
Record FileSystem : Type := mkFS {
  read_text : str -> str -> text_read;
  pdf_pages : str -> outcome (list str);
  docx_paragraphs : str -> outcome (list str)
}.

(** [os.path.basename] for POSIX paths: the text after the last slash
    (character 47). *)
Definition basename (path : str) : str :=
  default "" (last (PyStr.split_char 47 path)).

(** [s.rpartition(c)] without the separator, [None] when [c] is absent. *)
Fixpoint rsplit_char (c : N) (s : str) : option (str * str) :=
  match s with
  | EmptyStr => None
  | Str a r =>
      match rsplit_char c r with
      | Some (x, y) => Some (Str a x, y)
      | None => if (a =? c)%N then Some (EmptyStr, r) else None
      end
  end.

(** Only full stops (character 46). *)
Fixpoint all_dots (s : str) : bool :=
  match s with
  | EmptyStr => true
  | Str a r => if (a =? 46)%N then all_dots r else false
  end.

(** [os.path.splitext(path)[1]]: the text from the last dot of the file
    name, unless only dots come before it. *)
Definition splitext_ext (path : str) : str :=
  match rsplit_char 46 (basename path) with
  | Some (stem, ext) => if all_dots stem then "" else Str 46 ext
  | None => ""
  end.

Section Files.

Variable fs : FileSystem.

Fixpoint read_txt_loop (file_path : str) (encodings : list str) : outcome str :=
  match encodings with
  | [] => Raise "Unable to decode file with supported encodings"
  | encoding :: rest =>
      match read_text fs file_path encoding with
      | TextOk text => Return text
      | UnicodeDecodeError => read_txt_loop file_path rest
      | OtherError msg => Raise msg
      end
  end.

(** [_read_txt] *)
Definition _read_txt (file_path : str) : outcome str :=
  read_txt_loop file_path ["utf-8"; "latin-1"; "cp1252"].

(** [_read_pdf] *)
Definition _read_pdf (file_path : str) : outcome str :=
  match pdf_pages fs file_path with
  | Return pages =>
      Return (PyStr.join newline (filter (fun t => PyStr.truthy t = true) pages))
  | Raise e => Raise ("PDF reading error: " +:+ e)
  end.

(** [_read_docx] *)
Definition _read_docx (file_path : str) : outcome str :=
  match docx_paragraphs fs file_path with
  | Return paragraphs =>
      Return (PyStr.join (newline +:+ newline)
                (filter (fun t => PyStr.truthy (PyStr.strip t) = true) paragraphs))
  | Raise e => Raise ("DOCX reading error: " +:+ e)
  end.

(** The [try] block of [load_document] after the first assignment. *)
Definition load_content (file_path : str) : outcome str :=
  let file_extension := PyStr.lower (splitext_ext file_path) in
  content ←
    (if bool_decide (file_extension = ".txt") then _read_txt file_path
     else if bool_decide (file_extension = ".pdf") then _read_pdf file_path
     else if bool_decide (file_extension = ".docx") then _read_docx file_path
     else Raise ("Unsupported file type: " +:+ file_extension));
  if negb (PyStr.truthy (PyStr.strip content)) then
    Raise "Document appears to be empty"
  else Return content.

(** [load_document]: the object afterwards, and the text that the call
    returns or the exception that it raises.  The handler records the
    error, prints it and then returns the empty string. *)
Definition load_document (self : AstraAI) (file_path : str)
    : AstraAI * outcome str :=
  let self := set_document_name (Some (basename file_path)) self in
  match load_content file_path with
  | Return content => (self, Return content)
  | Raise e =>
      (set_last_error (Some e) self,
       _ ← print_red ("Error loading document: " +:+ e); Return "")
  end.

End Files.

(** ** Specification vocabulary *)

(** A well-formed question, in the words of the data model: the four
    labels are keys of the options, the correct label is one of them,
    and neither the prompt nor the explanation is empty. *)
Definition well_formed (q : QuizQuestion) : Prop :=
  (∀ l, l ∈ labels → is_Some (options q !! l))
  ∧ (∃ c, correct q = Some c ∧ c ∈ labels)
  ∧ question q ≠ ""
  ∧ (∃ e, explanation q = Some e ∧ e ≠ "").

(** One question in the format that the quiz prompt asks for. *)
Definition quiz_block (number prompt a b c d answer why : str) : str :=
  number +:+ ". " +:+ prompt +:+ newline
  +:+ "A) " +:+ a +:+ newline
  +:+ "B) " +:+ b +:+ newline
  +:+ "C) " +:+ c +:+ newline
  +:+ "D) " +:+ d +:+ newline
  +:+ "CORRECT: " +:+ answer +:+ newline
  +:+ "EXPLANATION: " +:+ why +:+ newline.

(** The response of the example scenario. *)
Definition example_text : str :=
  quiz_block "1" "What is 2+2?" "3" "4" "5" "6" "B" "Basic arithmetic.".

(** An assistant with a document, and the session started from the
    example response. *)
Definition with_document : AstraAI :=
  set_context "Two and two make four." (set_document_name (Some "sums.txt") init).

Definition example_session : AstraAI :=
  (generate_quiz with_document 1 (Return example_text)).1.

(** A response with four questions whose correct label is always B. *)
Definition four_text : str :=
  quiz_block "1" "What is 2+2?" "3" "4" "5" "6" "B" "Basic arithmetic."
  +:+ quiz_block "2" "What is 1+1?" "1" "2" "3" "4" "B" "One more than one."
  +:+ quiz_block "3" "What is 3+3?" "5" "6" "7" "8" "B" "Twice three."
  +:+ quiz_block "4" "What is 2+1?" "2" "3" "4" "5" "B" "One more than two.".

Definition four_session : AstraAI :=
  (generate_quiz with_document 4 (Return four_text)).1.

(** A run of [submit_answer] calls: the object at the end and the
    [is_correct] results, in order. *)
Fixpoint submit_all (self : AstraAI) (answers : list str)
    : outcome (AstraAI * list bool) :=
  match answers with
  | [] => Return (self, [])
  | a :: rest =>
      r ← submit_answer self a;
      r' ← submit_all r.1 rest;
      Return (r'.1, r.2.1 :: r'.2)
  end.

(** The feedback text of a [submit_answer] result. *)
Definition feedback_of (r : outcome (AstraAI * (bool * str))) : option str :=
  match r with
  | Return (_, (_, feedback)) => Some feedback
  | Raise _ => None
  end.

(** The calls that a user interface makes on a quiz session. *)
Inductive quiz_call : Type :=
| CallSubmit (answer : str)
| CallStatus
| CallCurrent
| CallEnd.

(** The object after one call; [get_quiz_status] and
    [get_current_question] only read it. *)
Definition run_call (self : AstraAI) (c : quiz_call) : outcome AstraAI :=
  match c with
  | CallSubmit answer => r ← submit_answer self answer; Return r.1
  | CallStatus => let _ := get_quiz_status self in Return self
  | CallCurrent => _ ← get_current_question self; Return self
  | CallEnd => Return (end_quiz self)
  end.

(** The objects reachable from a successful [generate_quiz]. *)
Inductive quiz_reachable : AstraAI → Prop :=
| reach_start self0 n reply self :
    generate_quiz self0 n reply = (self, Return true) → quiz_reachable self
| reach_call self c self' :
    quiz_reachable self → run_call self c = Return self' → quiz_reachable self'.

(** *** Vocabulary of the parser *)

(** A new accumulator: the given prompt, no option, no correct label and
    no explanation. *)
Definition fresh_question (prompt : str) : QuizQuestion :=
  {| question := prompt; options := ∅; correct := None; explanation := None |}.

(** The line [raw] opens a new accumulator with [prompt] in the state
    [st]: the accumulator that was open, if any, goes to the list, and
    the new one takes its place. *)
Definition opens_question (st : parser_state) (raw prompt : str) : Prop :=
  parse_line st raw = Return (st.1 ++ option_list st.2, Some (fresh_question prompt)).

(** The new-question rule in the words of the specification: the line
    begins with a decimal digit that is followed by a full stop and a
    blank. *)
Definition begins_with_digit_dot_blank (line : str) : bool :=
  match line with
  | Str d (Str 46 (Str 32 _)) => PyStr.isdigit d
  | _ => false
  end.

(** The line is an [EXPLANATION:] line. *)
Definition is_explanation_line (raw : str) : bool :=
  PyStr.startswith "EXPLANATION:" (PyStr.strip raw).

(** No line feed inside a line. *)
Fixpoint lf_free (s : str) : bool :=
  match s with
  | EmptyStr => true
  | Str c r => if (c =? PyStr.LF)%N then false else lf_free r
  end.

(** The text made of the given lines: ["\n".join(lines)]. *)
Definition unlines (lines : list str) : str := PyStr.join newline lines.

(** An open accumulator has no explanation yet. *)
Definition unexplained (current_question : option QuizQuestion) : Prop :=
  ∀ q, current_question = Some q → explanation q = None.

(** The line opens a question: the test of the first branch of the
    parsing loop. *)
Definition is_question_line (raw : str) : bool :=
  match PyStr.strip raw with
  | EmptyStr => false
  | Str c0 _ as line => PyStr.isdigit c0 && PyStr.contains ". " line
  end.

(** The text that an [EXPLANATION:] line gives to the explanation. *)
Definition explanation_of_line (raw : str) : str :=
  match PyStr.split_once ":" (PyStr.strip raw) with
  | Some (_, v) => PyStr.strip v
  | None => ""
  end.

(** Among the given lines, no [EXPLANATION:] line comes before the first
    line that opens a question. *)
Fixpoint no_stray_explanation (lines : list str) : bool :=
  match lines with
  | [] => true
  | l :: rest =>
      if is_question_line l then true
      else if is_explanation_line l then false
      else no_stray_explanation rest
  end.

(** *** Vocabulary of the end phrases *)

(** No white space in the string. *)
Fixpoint no_space (s : str) : bool :=
  match s with
  | EmptyStr => true
  | Str c r => negb (PyStr.isspace c) && no_space r
  end.

(** [w] occurs in [s] as a whole word delimited by white space: it is
    not empty, holds no white space, and each of its two ends touches an
    end of [s] or a white space character. *)
Definition whole_word (w s : str) : Prop :=
  w ≠ "" ∧ no_space w = true
  ∧ ∃ pre post,
      s = pre +:+ w +:+ post
      ∧ (pre = "" ∨ ∃ r c, pre = r +:+ Str c "" ∧ PyStr.isspace c = true)
      ∧ (post = "" ∨ ∃ c r, post = Str c r ∧ PyStr.isspace c = true).

(** The question holds an end phrase as a whole word, whatever the case
    of its letters. *)
Definition says_end_phrase (question : str) : Prop :=
  ∃ phrase, phrase ∈ end_phrases ∧ whole_word phrase (PyStr.lower question).

(** Only white space in the string. *)
Fixpoint all_space (s : str) : bool :=
  match s with
  | EmptyStr => true
  | Str c r => PyStr.isspace c && all_space r
  end.

(** *** Vocabulary of the chat context *)

(** The system message that presents the loaded document. *)
Definition document_message (name text : str) : message :=
  {| role := "system";
     content := "Using content from document: " +:+ name
                +:+ newline +:+ newline +:+ PyStr.take 1500 text |}.

Definition user_message (question : str) : message :=
  {| role := "user"; content := question |}.

(** *** Sample responses, line by line *)

(** The lines of one question, up to its [CORRECT:] line. *)
Definition one_question_open : list str :=
  ["1. What is 2+2?"; "A) 3"; "B) 4"; "C) 5"; "D) 6"; "CORRECT: B"].

(** Two questions, the second one up to its [CORRECT:] line. *)
Definition two_questions_open : list str :=
  one_question_open
  ++ ["EXPLANATION: Basic arithmetic.";
      "2. What is 1+1?"; "A) 1"; "B) 2"; "C) 3"; "D) 4"; "CORRECT: B"].

Definition last_explanation : str := "EXPLANATION: One more than one.".

(** *** Invariant of a quiz session *)

(** The counters are in range, [total_questions] is the number of stored
    questions, and the session is active exactly while questions remain. *)
Definition session_invariant (self : AstraAI) : Prop :=
  0 ≤ quiz_progress self ≤ total_questions self
  ∧ 0 ≤ quiz_score self ≤ quiz_progress self
  ∧ total_questions self = Z.of_nat (length (current_quiz self))
  ∧ (quiz_active self = true ↔ quiz_progress self < total_questions self).

(** *** Sample files *)

(** A file system with one readable text file, one empty text file and
    one text file that no encoding decodes. *)
Definition sample_files : FileSystem :=
  {| read_text path encoding :=
       if bool_decide (path = "/docs/sums.txt") then TextOk "Two and two make four."
       else if bool_decide (path = "/docs/blank.txt") then TextOk "   "
       else if bool_decide (path = "/docs/bad.txt") then UnicodeDecodeError
       else OtherError "[Errno 2] No such file or directory";
     pdf_pages path := Raise "EOF marker not found";
     docx_paragraphs path := Raise "Package not found" |}.

(** ** The upload handler of the interface *)

(** What the handler does with temporary files: the directory that
    [tempfile.mkdtemp] makes, the writing of the upload under a path,
    and the removal of that file and of the directory after the load. *)
Record TempFiles : Type := mkTemp {
  mkdtemp : outcome str;
  save : str -> outcome unit;
  remove : str -> str -> outcome unit
}.

(** [os.path.join(a, b)] for POSIX paths. *)
Definition path_join (a b : str) : str :=
  if PyStr.startswith "/" b then b
  else if negb (PyStr.truthy a) || PyStr.endswith "/" a then a +:+ b
  else a +:+ "/" +:+ b.

(** [handle_file_upload] of [streamlit_app.py], as far as it acts on the
    assistant.  The saved upload is read through the file system [fs].
    An exception of a step is caught by the outer handler, which returns
    [False].  The Streamlit messages are left out; so is the [finally]
    block, which finds nothing to remove once the removal has succeeded
    and otherwise precedes a result that is [False] already. *)
Definition handle_file_upload (fs : FileSystem) (tmp : TempFiles)
    (self : AstraAI) (uploaded_file : option UploadedFile.t) : AstraAI * bool :=
  match uploaded_file with
  | None => (self, false)
  | Some uploaded_file =>
      let file_size := UploadedFile.size uploaded_file in
      if file_size =? 0 then (self, false)
      else
        match mkdtemp tmp with
        | Raise _ => (self, false)
        | Return temp_dir =>
            let temp_file_path :=
              path_join temp_dir (UploadedFile.name uploaded_file) in
            match save tmp temp_file_path with
            | Raise _ => (self, false)
            | Return _ =>
                let '(self, loaded) := load_document fs self temp_file_path in
                match loaded with
                | Raise _ => (self, false)
                | Return content =>
                    match remove tmp temp_file_path temp_dir with
                    | Raise _ => (self, false)
                    | Return _ =>
                        if negb (PyStr.truthy content) then (self, false)
                        else (set_context content self, true)
                    end
                end
            end
        end
  end.

(** The steps of an upload up to the load: the file is there and not
    empty, the temporary directory is made and the file is saved under
    [temp_file_path]. *)
Definition upload_saved (tmp : TempFiles) (uploaded_file : option UploadedFile.t)
    (temp_dir temp_file_path : str) : Prop :=
  ∃ up,
    uploaded_file = Some up
    ∧ UploadedFile.size up ≠ 0
    ∧ mkdtemp tmp = Return temp_dir
    ∧ temp_file_path = path_join temp_dir (UploadedFile.name up)
    ∧ save tmp temp_file_path = Return tt.

(** ** Every call on the assistant *)

(** The calls that the interface makes on an [AstraAI] object, each with
    what the outside world answers during the call. *)
Inductive astra_call : Type :=
| DoLoadDocument (fs : FileSystem) (file_path : str)
| DoUpload (fs : FileSystem) (tmp : TempFiles) (uploaded_file : option UploadedFile.t)
| DoAsk (complete : list message → outcome str) (question : str)
| DoReset
| DoGenerateQuiz (num_questions : Z) (reply : outcome str)
| DoQuiz (c : quiz_call).

(** The object after one call.  A call that raises in its handler has
    written the object before. *)
Definition run_astra (self : AstraAI) (c : astra_call) : outcome AstraAI :=
  match c with
  | DoLoadDocument fs file_path => Return (load_document fs self file_path).1
  | DoUpload fs tmp uploaded_file =>
      Return (handle_file_upload fs tmp self uploaded_file).1
  | DoAsk complete question => Return (after (ask_question complete self question))
  | DoReset => Return (reset_conversation self)
  | DoGenerateQuiz num_questions reply =>
      Return (generate_quiz self num_questions reply).1
  | DoQuiz c => run_call self c
  end.

(** The objects that a program obtains from [AstraAI()] by such calls. *)
Inductive astra_reachable : AstraAI → Prop :=
| reach_init : astra_reachable init
| reach_astra self c self' :
    astra_reachable self → run_astra self c = Return self' → astra_reachable self'.

Definition assistant_message (response : str) : message :=
  {| role := "assistant"; content := response |}.

(** The turns of a list of exchanges, each a question and its answer. *)
Fixpoint turns (exchanges : list (str * str)) : list message :=
  match exchanges with
  | [] => []
  | (question, response) :: rest =>
      user_message question :: assistant_message response :: turns rest
  end.

(** What every reachable object satisfies. *)
Definition object_invariant (self : AstraAI) : Prop :=
  model self = "llama3.2"
  ∧ _answer_history self = None
  ∧ session_invariant self
  ∧ Forall well_formed (current_quiz self)
  ∧ ∃ exchanges,
      chat_history self = turns exchanges
      ∧ Forall (λ e, PyStr.strip e.1 ≠ "" ∧ PyStr.strip e.2 ≠ "") exchanges.

(** ** Quiz responses in the requested format *)

(** The data of one question. *)
Record quiz_item : Type := mkItem {
  item_prompt : str;
  item_A : str;
  item_B : str;
  item_C : str;
  item_D : str;
  item_answer : str;
  item_why : str
}.

(** The dictionary that the parser should build for an item. *)
Definition item_question (it : quiz_item) : QuizQuestion :=
  {| question := item_prompt it;
     options :=
       <["D" := item_D it]>
         (<["C" := item_C it]> (<["B" := item_B it]> (<["A" := item_A it]> ∅)));
     correct := Some (item_answer it);
     explanation := Some (item_why it) |}.

(** The item written in the format of the prompt, under a number. *)
Definition render_item (numbered : str * quiz_item) : str :=
  quiz_block numbered.1 (item_prompt numbered.2)
    (item_A numbered.2) (item_B numbered.2) (item_C numbered.2) (item_D numbered.2)
    (item_answer numbered.2) (item_why numbered.2).

Fixpoint render_quiz (items : list (str * quiz_item)) : str :=
  match items with
  | [] => ""
  | it :: rest => render_item it +:+ render_quiz rest
  end.

(** A text of one line, not empty, with no white space at its ends. *)
Definition plain (t : str) : Prop :=
  t ≠ "" ∧ lf_free t = true ∧ PyStr.strip t = t.

(** Only the decimal digits [0] to [9] (characters 48 to 57). *)
Fixpoint all_digits (s : str) : bool :=
  match s with
  | EmptyStr => true
  | Str c r => (48 <=? c)%N && (c <=? 57)%N && all_digits r
  end.

Definition item_ok (numbered : str * quiz_item) : Prop :=
  numbered.1 ≠ "" ∧ all_digits numbered.1 = true
  ∧ plain (item_prompt numbered.2)
  ∧ plain (item_A numbered.2) ∧ plain (item_B numbered.2)
  ∧ plain (item_C numbered.2) ∧ plain (item_D numbered.2)
  ∧ item_answer numbered.2 ∈ labels
  ∧ plain (item_why numbered.2).

(** The number of [true] in a list of results. *)
Definition count_true (outcomes : list bool) : Z :=
  Z.of_nat (length (filter (λ b, b = true) outcomes)).

(** The number of [EXPLANATION:] lines among the given lines. *)
Definition explanation_lines (lines : list str) : nat :=
  length (filter (λ l, is_explanation_line l = true) lines).

(** A sample item and a sample file system with a scanned PDF, whose
    pages carry no text. *)
Definition sample_item : quiz_item :=
  {| item_prompt := "What is 2+2?"; item_A := "3"; item_B := "4";
     item_C := "5"; item_D := "6"; item_answer := "B";
     item_why := "Basic arithmetic." |}.

Definition scanned_files : FileSystem :=
  {| read_text path encoding :=
       if bool_decide (encoding = "utf-8") then UnicodeDecodeError
       else TextOk "cafe";
     pdf_pages path := Return [""; "  "; ""];
     docx_paragraphs path := Return [] |}.

(** A file system without any file. *)
Definition missing_files : FileSystem :=
  {| read_text path encoding :=
       OtherError ("[Errno 2] No such file or directory: '" +:+ path +:+ "'");
     pdf_pages path :=
       Raise ("[Errno 2] No such file or directory: '" +:+ path +:+ "'");
     docx_paragraphs path := Raise ("Package not found at '" +:+ path +:+ "'") |}.

(** Temporary files for which every step succeeds, in the directory
    [/docs], and an upload of 22 bytes named [sums.txt]. *)
Definition sample_temp : TempFiles :=
  {| mkdtemp := Return "/docs";
     save path := Return tt;
     remove path dir := Return tt |}.

Definition sample_upload : UploadedFile.t :=
  {| UploadedFile.name := "sums.txt"; UploadedFile.size := 22 |}.

(** The seven lines of a rendered item. *)
Definition block_lines (numbered : str * quiz_item) : list str :=
  [numbered.1 +:+ ". " +:+ item_prompt numbered.2;
   "A) " +:+ item_A numbered.2;
   "B) " +:+ item_B numbered.2;
   "C) " +:+ item_C numbered.2;
   "D) " +:+ item_D numbered.2;
   "CORRECT: " +:+ item_answer numbered.2;
   "EXPLANATION: " +:+ item_why numbered.2].

(** The extensions that [load_document] reads. *)
Definition supported_extensions : list str := [".txt"; ".pdf"; ".docx"].

(** The encodings that [_read_txt] tries, in order. *)
Definition text_encodings : list str := ["utf-8"; "latin-1"; "cp1252"].

End Program.

(** * Properties *)

Section Properties.

Context {tables : Unicode} {console : Rich}.

(** ** The string primitives on examples *)

Example strip_example : PyStr.strip "  a b  " = "a b".
Proof. reflexivity. Qed.

Example split_ws_example : PyStr.split_ws "  ok bye  then " = ["ok"; "bye"; "then"].
Proof. reflexivity. Qed.

(** The no-break space U+00A0 is white space. *)
Example no_break_space_example :
  PyStr.strip (Str 160 "1. Why?") = "1. Why?"
  ∧ PyStr.split_ws ("ok" +:+ Str 160 "bye") = ["ok"; "bye"]
  ∧ _should_end_conversation ("ok" +:+ Str 160 "bye") = true.
Proof. by vm_compute. Qed.

Example split_once_example :
  PyStr.split_once ". " "10. What. is" = Some ("10", "What. is").
Proof. reflexivity. Qed.

Example splitext_example :
  basename "/tmp/x/notes.TXT" = "notes.TXT"
  ∧ splitext_ext "/tmp/x/notes.TXT" = ".TXT"
  ∧ splitext_ext "/a.b/.bashrc" = ""
  ∧ splitext_ext "a/..x.y" = ".y".
Proof. by vm_compute. Qed.

(** ** Well-formed output of the parser *)

Lemma validate_well_formed q : _validate_question q = true → well_formed q.
Proof.
  unfold _validate_question, well_formed.
  destruct (forallb _ labels) eqn:Hopts; simpl; [|done].
  destruct (correct q) as [c|]; simpl; [|done].
  destruct (bool_decide (c ∈ labels)) eqn:Hc; simpl; [|done].
  destruct (question q) as [|a p]; simpl; [done|].
  destruct (explanation q) as [[|b e]|]; simpl; try done.
  intros _. split_and!.
  - intros l Hl. rewrite forallb_forall in Hopts.
    apply list_elem_of_In, Hopts in Hl. by apply bool_decide_eq_true in Hl.
  - exists c. split; [done|]. by apply bool_decide_eq_true in Hc.
  - done.
  - by eexists.
Qed.

(** C1: every question returned by [_parse_quiz_response], for every
    response text, has the four option labels A, B, C and D among its
    options, a correct label that is one of the four, and a prompt and an
    explanation that are not empty. *)
Theorem parser_output_well_formed (response_text : str) :
  Forall well_formed (_parse_quiz_response response_text).
Proof.
  unfold _parse_quiz_response.
  destruct (parse_candidates response_text) as [questions|]; [|constructor].
  apply Forall_forall. intros q Hq.
  apply list_elem_of_filter in Hq as [Hq _]. by apply validate_well_formed.
Qed.

(** The parser does produce questions: the example response yields one. *)
Example parse_example_text :
  map question (_parse_quiz_response example_text) = ["What is 2+2?"]
  ∧ map correct (_parse_quiz_response example_text) = [Some "B"]
  ∧ map explanation (_parse_quiz_response example_text) = [Some "Basic arithmetic."].
Proof. by vm_compute. Qed.

(** ** The quiz session *)

Lemma index_list_lookup {A} (l : list A) (i : Z) :
  0 ≤ i < Z.of_nat (length l) → ∃ a, index_list l i = Return a ∧ l !! Z.to_nat i = Some a.
Proof.
  intros Hi. unfold index_list.
  destruct (Z.ltb_spec i 0); [lia|].
  destruct (Z.leb_spec 0 i); [|lia].
  destruct (Z.ltb_spec i (Z.of_nat (length l))); [|lia]. simpl.
  destruct (lookup_lt_is_Some_2 l (Z.to_nat i)) as [a Ha]; [lia|].
  rewrite Ha. by exists a.
Qed.

(** What [submit_answer] does once the label is valid. *)
Lemma submit_answer_valid self answer q :
  quiz_active self = true →
  get_current_question self = Return (Some q) →
  PyStr.upper answer ∈ labels →
  let ok := bool_decide (Some (PyStr.upper answer) = correct q) in
  submit_answer self answer =
  Return (set_quiz (if total_questions self <=? quiz_progress self + 1 then false else true)
            (current_quiz self) (quiz_progress self + 1)
            (if ok then quiz_score self + 1 else quiz_score self)
            (total_questions self) self,
          (ok,
           if ok then "✅ Correct! " +:+ format_opt (explanation q)
           else "❌ Incorrect. The correct answer was "
                +:+ format_opt (correct q) +:+ ". " +:+ format_opt (explanation q))).
Proof.
  intros Hact Hcur Hin. unfold submit_answer.
  rewrite Hact, Hcur. simpl.
  rewrite (bool_decide_eq_true_2 _ Hin). simpl. done.
Qed.

(** C2, as the code has it: on an active session whose current question
    [q] has correct label [c] and explanation [e], [submit_answer] with a
    valid label returns [is_correct] together with a feedback text that
    ends with [e] and starts with a fixed verdict, "✅ Correct! " or
    "❌ Incorrect. The correct answer was c. "; on the one-question
    session of the example, [submit_answer("b")] returns
    [(True, "✅ Correct! Basic arithmetic.")] and leaves the session
    completed: inactive, with the progress equal to the length. *)
Theorem submit_answer_feedback (self : AstraAI) (answer : str)
    (q : QuizQuestion) (c e : str) :
  quiz_active self = true →
  get_current_question self = Return (Some q) →
  correct q = Some c →
  explanation q = Some e →
  PyStr.upper answer ∈ labels →
  (∃ self',
      submit_answer self answer =
      Return (self',
              (bool_decide (PyStr.upper answer = c),
               if bool_decide (PyStr.upper answer = c)
               then "✅ Correct! " +:+ e
               else "❌ Incorrect. The correct answer was " +:+ c +:+ ". " +:+ e)))
  ∧ (∃ self',
        submit_answer example_session "b" =
        Return (self', (true, "✅ Correct! Basic arithmetic."))
        ∧ quiz_active self' = false
        ∧ quiz_progress self' = Z.of_nat (length (current_quiz self'))
        ∧ quiz_progress self' = total_questions self').
Proof.
  intros Hact Hcur Hc He Hin. split.
  - eexists. rewrite (submit_answer_valid _ _ q) by done.
    rewrite Hc, He. simpl.
    assert (bool_decide (Some (PyStr.upper answer) = Some c)
            = bool_decide (PyStr.upper answer = c)) as ->.
    { apply bool_decide_ext. naive_solver. }
    done.
  - eexists. split; [by vm_compute|]. by vm_compute.
Qed.

Lemma submit_answer_invalid self label q :
  quiz_active self = true →
  get_current_question self = Return (Some q) →
  PyStr.upper label ∉ labels →
  submit_answer self label = Return (self, (false, "Invalid answer option")).
Proof.
  intros Hact Hcur Hnot. unfold submit_answer.
  rewrite Hact, Hcur. simpl.
  by rewrite (bool_decide_eq_false_2 _ Hnot).
Qed.

(** C5: on an active session with a current question, a label that is
    not A, B, C or D after upper-casing is answered by
    [(False, "Invalid answer option")] and the object is returned as it
    was, so progress, score, the active flag and the questions are
    unchanged. *)
Theorem invalid_label_changes_nothing (self : AstraAI) (label : str)
    (q : QuizQuestion) :
  quiz_active self = true →
  get_current_question self = Return (Some q) →
  PyStr.upper label ∉ labels →
  submit_answer self label = Return (self, (false, "Invalid answer option")).
Proof. apply submit_answer_invalid. Qed.

(** *** The streak *)

Lemma streak_loop_without_history indices streak :
  streak_loop None indices streak = streak.
Proof. by destruct indices. Qed.

(** Without the attribute [_answer_history] the streak is zero. *)
Lemma streak_without_history self :
  _answer_history self = None → _calculate_current_streak self = 0.
Proof.
  intros H. unfold _calculate_current_streak. rewrite H.
  apply streak_loop_without_history.
Qed.

(** [submit_answer] never writes the attribute. *)
Lemma submit_answer_keeps_history self answer self' r :
  submit_answer self answer = Return (self', r) →
  _answer_history self' = _answer_history self.
Proof.
  unfold submit_answer.
  destruct (quiz_active self); simpl; [|by intros [= <- _]].
  destruct (get_current_question self) as [[q|]|]; simpl; [| by intros [= <- _] | done].
  destruct (bool_decide (PyStr.upper answer ∈ labels)); simpl; by intros [= <- _].
Qed.

(** C3, on the code: a fresh session of four questions answered
    incorrectly, then correctly three times, reports the outcomes false,
    true, true, true and a [current_streak] of 0, not 3; the history that
    the streak reads is never recorded. *)
Theorem streak_stays_zero :
  match submit_all four_session ["a"; "b"; "b"; "b"] with
  | Return (self, outcomes) =>
      outcomes = [false; true; true; true]
      ∧ quiz_progress self = 4
      ∧ _answer_history self = None
      ∧ Status.current_streak (get_quiz_status self) = 0
  | Raise _ => False
  end.
Proof. by vm_compute. Qed.

(** *** The invariant of a session *)

Lemma generate_quiz_invariant self0 n reply self :
  generate_quiz self0 n reply = (self, Return true) → session_invariant self.
Proof.
  unfold generate_quiz.
  destruct (PyStr.truthy (context self0)); simpl; [|done].
  destruct reply as [text|e].
  2:{ intros [= _ Hp]. by destruct (print_red _). }
  destruct (_parse_quiz_response text) as [|q qs]; [done|].
  intros [= <-]. unfold session_invariant. simpl.
  split; [lia|]. split; [lia|]. split; [done|]. split; [lia|done].
Qed.

Lemma current_question_of_active self :
  session_invariant self → quiz_active self = true →
  ∃ q, get_current_question self = Return (Some q).
Proof.
  intros (Hp & Hs & Hlen & Hact) Ha. unfold get_current_question.
  rewrite Ha. simpl.
  destruct (Z.leb_spec (Z.of_nat (length (current_quiz self))) (quiz_progress self)).
  { apply Hact in Ha. lia. }
  destruct (index_list_lookup (current_quiz self) (quiz_progress self)) as (q & -> & _);
    [lia|].
  by exists q.
Qed.

Lemma current_question_of_inactive self :
  quiz_active self = false → get_current_question self = Return None.
Proof. intros Ha. unfold get_current_question. by rewrite Ha. Qed.

Lemma submit_answer_invariant self answer :
  session_invariant self →
  ∃ self' r,
    submit_answer self answer = Return (self', r)
    ∧ session_invariant self'
    ∧ (quiz_active self = false → quiz_active self' = false)
    ∧ (quiz_active self = true →
       (quiz_active self' = false ↔ quiz_progress self' = total_questions self')).
Proof.
  intros Hinv. destruct (quiz_active self) eqn:Ha.
  - destruct (current_question_of_active self Hinv Ha) as [q Hq].
    destruct (decide (PyStr.upper answer ∈ labels)) as [Hin|Hnot].
    + rewrite (submit_answer_valid self answer q Ha Hq Hin).
      do 2 eexists. split; [done|].
      destruct Hinv as (Hp & Hs & Hlen & Hact).
      apply Hact in Ha.
      unfold session_invariant. simpl.
      assert (0 ≤ (if bool_decide (Some (PyStr.upper answer) = correct q)
                   then quiz_score self + 1 else quiz_score self)
              ≤ quiz_progress self + 1) as Hscore.
      { destruct (bool_decide _); lia. }
      destruct (Z.leb_spec (total_questions self) (quiz_progress self + 1)).
      * split; [|split; [done|]].
        -- split; [lia|]. split; [done|]. split; [done|]. split; [done|lia].
        -- intros _. split; [lia|done].
      * split; [|split; [done|]].
        -- split; [lia|]. split; [done|]. split; [done|]. split; [lia|done].
        -- intros _. split; [done|lia].
    + rewrite (submit_answer_invalid self answer q Ha Hq Hnot).
      do 2 eexists. split; [done|]. split; [done|]. split; [by rewrite Ha|].
      intros _. destruct Hinv as (Hp & Hs & Hlen & Hact). apply Hact in Ha.
      rewrite (proj2 Hact Ha). split; [done|lia].
  - unfold submit_answer. rewrite Ha. simpl.
    do 2 eexists. split; [done|]. split; [done|]. split; [done|]. by rewrite Ha.
Qed.

Lemma run_call_invariant self c :
  session_invariant self →
  ∃ self',
    run_call self c = Return self'
    ∧ session_invariant self'
    ∧ (quiz_active self = false → quiz_active self' = false)
    ∧ (quiz_active self = true →
       (quiz_active self' = false ↔
        c = CallEnd ∨ quiz_progress self' = total_questions self')).
Proof.
  intros Hinv. destruct c as [answer| | |]; simpl.
  - destruct (submit_answer_invariant self answer Hinv)
      as (self' & r & -> & Hinv' & Hoff & Hon).
    exists self'. split; [done|]. split; [done|]. split; [done|].
    intros Ha. split.
    + intros Hoff'. right. by apply Hon.
    + intros [|Heq]; [done|]. by apply Hon.
  - exists self. split; [done|]. split; [done|]. split; [done|].
    intros Ha. rewrite Ha. destruct Hinv as (_ & _ & _ & Hact).
    apply Hact in Ha. split; [done|]. intros [|]; [done|lia].
  - exists self. split.
    + destruct (quiz_active self) eqn:Ha.
      * by destruct (current_question_of_active self Hinv Ha) as [q ->].
      * by rewrite current_question_of_inactive.
    + split; [done|]. split; [done|].
      intros Ha. rewrite Ha. destruct Hinv as (_ & _ & _ & Hact).
      apply Hact in Ha. split; [done|]. intros [|]; [done|lia].
  - exists (end_quiz self). split; [done|]. split.
    + unfold session_invariant. simpl.
      split; [lia|]. split; [lia|]. split; [done|]. split; [done|lia].
    + split; [done|]. intros _. split; [by left|done].
Qed.

Lemma reachable_invariant self : quiz_reachable self → session_invariant self.
Proof.
  induction 1 as [self0 n reply self Hgen | self c self' _ IH Hcall].
  - by eapply generate_quiz_invariant.
  - destruct (run_call_invariant self c IH) as (self'' & Hrun & Hinv & _).
    rewrite Hrun in Hcall. by injection Hcall as <-.
Qed.

(** C4: in every object reachable from a successful [generate_quiz] by
    [submit_answer], [get_quiz_status], [get_current_question] and
    [end_quiz] calls, [0 <= quiz_progress <= total_questions] and
    [quiz_score <= quiz_progress]; the session is inactive exactly when
    the progress equals the total; every such call returns, and it
    turns an active session inactive exactly when it is [end_quiz] or
    when it brings the progress to the total, an inactive session
    staying inactive. *)
Theorem quiz_session_invariant (self : AstraAI) :
  quiz_reachable self →
  0 ≤ quiz_progress self ≤ total_questions self
  ∧ quiz_score self ≤ quiz_progress self
  ∧ (quiz_active self = false ↔ quiz_progress self = total_questions self)
  ∧ ∀ c, ∃ self',
      run_call self c = Return self'
      ∧ (quiz_active self = true →
         (quiz_active self' = false ↔
          c = CallEnd ∨ quiz_progress self' = total_questions self'))
      ∧ (quiz_active self = false → quiz_active self' = false).
Proof.
  intros Hreach. pose proof (reachable_invariant self Hreach) as Hinv.
  destruct (Hinv) as (Hp & Hs & Hlen & Hact).
  split; [done|]. split; [lia|]. split.
  - destruct (quiz_active self).
    + split; [done|]. intros Heq. assert (quiz_progress self < total_questions self) by tauto. lia.
    + split; [|done]. intros _.
      destruct (Z.lt_ge_cases (quiz_progress self) (total_questions self)) as [Hlt|Hge];
        [|lia].
      by apply Hact in Hlt.
  - intros c. destruct (run_call_invariant self c Hinv) as (self' & Hrun & _ & Hoff & Hon).
    by exists self'.
Qed.

(** ** Loading a document *)

(** C10: [load_document] assigns [document_name] the base name of the
    path before anything can fail, so the object after the call carries
    the new name whatever happens next.  A call whose reading or
    validation raises records the message in [last_error], leaves the
    context as it was, and still leaves [document_name] set to the new
    name; it returns the empty string once the console has printed the
    message, and raises what the console raises otherwise. *)
Theorem load_document_names_before_validating (fs : FileSystem) (self : AstraAI)
    (file_path : str) :
  document_name (load_document fs self file_path).1 = Some (basename file_path)
  ∧ match load_content fs file_path with
    | Return content =>
        load_document fs self file_path
        = (set_document_name (Some (basename file_path)) self, Return content)
    | Raise e =>
        last_error (load_document fs self file_path).1 = Some e
        ∧ document_name (load_document fs self file_path).1 = Some (basename file_path)
        ∧ context (load_document fs self file_path).1 = context self
        ∧ match print_red ("Error loading document: " +:+ e) with
          | Return _ => (load_document fs self file_path).2 = Return ""
          | Raise m => (load_document fs self file_path).2 = Raise m
          end
    end.
Proof.
  unfold load_document. destruct (load_content fs file_path) as [content|e]; simpl.
  - done.
  - by destruct (print_red _).
Qed.

(** Failed loads after a document was loaded: unsupported
    extension, empty content, undecodable file, unreadable file. *)
Example failed_loads_rename_the_document :
  let loaded := set_context "Two and two make four."
                  (load_document sample_files init "/docs/sums.txt").1 in
  document_name loaded = Some "sums.txt"
  ∧ (let r := load_document sample_files loaded "/docs/notes.md" in
     r.2 = Return "" ∧ last_error r.1 = Some "Unsupported file type: .md"
     ∧ document_name r.1 = Some "notes.md" ∧ context r.1 = "Two and two make four.")
  ∧ (let r := load_document sample_files loaded "/docs/blank.txt" in
     r.2 = Return "" ∧ last_error r.1 = Some "Document appears to be empty"
     ∧ document_name r.1 = Some "blank.txt")
  ∧ (let r := load_document sample_files loaded "/docs/bad.txt" in
     r.2 = Return "" ∧ last_error r.1 = Some "Unable to decode file with supported encodings"
     ∧ document_name r.1 = Some "bad.txt")
  ∧ (let r := load_document sample_files loaded "/docs/scan.PDF" in
     r.2 = Return "" ∧ last_error r.1 = Some "PDF reading error: EOF marker not found"
     ∧ document_name r.1 = Some "scan.PDF").
Proof. by vm_compute. Qed.

(** ** Strings *)

Lemma app_cons (c : N) (s t : str) : Str c s +:+ t = Str c (s +:+ t).
Proof. reflexivity. Qed.

Lemma app_empty_l (s : str) : "" +:+ s = s.
Proof. reflexivity. Qed.

Lemma app_empty_r (s : str) : s +:+ "" = s.
Proof. induction s as [|c s IH]; [done|]. by rewrite app_cons, IH. Qed.

Lemma app_assoc_str (s t u : str) : (s +:+ t) +:+ u = s +:+ t +:+ u.
Proof. induction s as [|c s IH]; [done|]. by rewrite !app_cons, IH. Qed.

Lemma length_app_str (s t : str) :
  PyStr.len (s +:+ t) = (PyStr.len s + PyStr.len t)%nat.
Proof. induction s as [|c s IH]; [done|]. rewrite app_cons. simpl. by rewrite IH. Qed.

Lemma app_eq_empty (s t : str) : s +:+ t = "" → s = "" ∧ t = "".
Proof. destruct s; [done|]. by rewrite app_cons. Qed.

Lemma startswith_app (p r : str) : PyStr.startswith p (p +:+ r) = true.
Proof.
  induction p as [|a p IH]; [done|]. rewrite app_cons. simpl.
  by destruct (N.eqb_spec a a).
Qed.

Lemma startswith_inv (p s : str) :
  PyStr.startswith p s = true → ∃ r, s = p +:+ r.
Proof.
  revert s. induction p as [|a p IH]; intros s H.
  - by exists s.
  - destruct s as [|b s]; [done|]. simpl in H.
    destruct (N.eqb_spec a b) as [->|]; [|done].
    destruct (IH s H) as [r ->]. by exists r.
Qed.

Lemma drop_app_length (p r : str) : PyStr.drop (PyStr.len p) (p +:+ r) = r.
Proof. induction p as [|a p IH]; [by destruct r|]. by rewrite app_cons. Qed.

Lemma startswith_drop (p s : str) :
  PyStr.startswith p s = true → s = p +:+ PyStr.drop (PyStr.len p) s.
Proof. intros [r ->]%startswith_inv. by rewrite drop_app_length. Qed.

Lemma split_once_sound (sep s a b : str) :
  PyStr.split_once sep s = Some (a, b) → s = a +:+ sep +:+ b.
Proof.
  revert a b. induction s as [|c s IH]; intros a b; simpl.
  - destruct (PyStr.startswith sep "") eqn:Hp; [|done].
    intros [= <- <-]. by apply startswith_drop.
  - destruct (PyStr.startswith sep (Str c s)) eqn:Hp.
    + intros [= <- <-]. by apply startswith_drop.
    + destruct (PyStr.split_once sep s) as [[a' b']|]; [|done].
      intros [= <- <-]. rewrite app_cons. f_equal. by apply IH.
Qed.

Lemma split_once_leftmost (sep s a b : str) :
  PyStr.split_once sep s = Some (a, b) →
  ∀ a' b', s = a' +:+ sep +:+ b' → (PyStr.len a ≤ PyStr.len a')%nat.
Proof.
  revert a b. induction s as [|c s IH]; intros a b; simpl.
  - destruct (PyStr.startswith sep ""); [|done]. intros [= <- <-] a' b' _. simpl. lia.
  - destruct (PyStr.startswith sep (Str c s)) eqn:Hp.
    + intros [= <- <-] a' b' _. simpl. lia.
    + destruct (PyStr.split_once sep s) as [[a0 b0]|] eqn:Hs; [|done].
      intros [= <- <-] a' b' Heq.
      destruct a' as [|c' a'].
      * rewrite app_empty_l in Heq. rewrite Heq, startswith_app in Hp. done.
      * rewrite app_cons in Heq. injection Heq as -> Heq.
        simpl. apply le_n_S. by eapply IH.
Qed.

Lemma split_once_complete (sep s a b : str) :
  s = a +:+ sep +:+ b → is_Some (PyStr.split_once sep s).
Proof.
  revert s. induction a as [|c a IH]; intros s ->.
  - rewrite app_empty_l. destruct (sep +:+ b) eqn:E; simpl;
      rewrite <- E, startswith_app; by eexists.
  - rewrite app_cons. simpl.
    destruct (PyStr.startswith sep _); [by eexists|].
    destruct (IH _ eq_refl) as [[a' b'] ->]. by eexists.
Qed.

Lemma contains_spec (sep s : str) :
  PyStr.contains sep s = true ↔ ∃ a b, s = a +:+ sep +:+ b.
Proof.
  unfold PyStr.contains. split.
  - destruct (PyStr.split_once sep s) as [[a b]|] eqn:E; [|done].
    intros _. exists a, b. by apply split_once_sound.
  - intros (a & b & H). by destruct (split_once_complete sep s a b H) as [p ->].
Qed.

(** ** The line rules of the parser *)

Lemma split_snd_contains sep line :
  PyStr.contains sep line = true → ∃ a b, PyStr.split_once sep line = Some (a, b).
Proof.
  unfold PyStr.contains. destruct (PyStr.split_once sep line) as [[a b]|]; [|done].
  intros _. by exists a, b.
Qed.

Lemma startswith_contains_colon (tag line : str) :
  PyStr.startswith (tag +:+ ":") line = true →
  ∃ a b, PyStr.split_once ":" line = Some (a, b).
Proof.
  intros [r ->]%startswith_inv. apply split_snd_contains, contains_spec.
  exists tag, r. by rewrite app_assoc_str.
Qed.

(** The loop body never raises. *)
Lemma parse_line_total st raw : ∃ st', parse_line st raw = Return st'.
Proof.
  destruct st as [qs cur]. unfold parse_line.
  destruct (PyStr.strip raw) as [|c0 rest]; [by eexists|].
  remember (Str c0 rest) as line eqn:Hline.
  destruct (PyStr.isdigit c0 && PyStr.contains ". " line) eqn:Hq.
  { apply andb_true_iff in Hq as [_ Hc].
    destruct (split_snd_contains _ _ Hc) as (a & b & Hs).
    unfold split_snd. rewrite Hs. by eexists. }
  destruct (PyStr.char_in c0 "ABCD" && PyStr.contains ") " line) eqn:Ho.
  { apply andb_true_iff in Ho as [_ Hc].
    destruct (split_snd_contains _ _ Hc) as (a & b & Hs).
    unfold split_pair. rewrite Hs. by eexists. }
  destruct (PyStr.startswith "CORRECT:" line) eqn:Hc.
  { destruct cur as [q|]; [|by eexists].
    destruct (startswith_contains_colon "CORRECT" line Hc) as (a & b & Hs).
    unfold split_snd. rewrite Hs. by eexists. }
  destruct (PyStr.startswith "EXPLANATION:" line) eqn:He; [|by eexists].
  destruct cur as [q|]; [|by eexists].
  destruct (startswith_contains_colon "EXPLANATION" line He) as (a & b & Hs).
  unfold split_snd. rewrite Hs. by eexists.
Qed.

Lemma list_neq_app_cons {A} (l : list A) (x : A) : l ≠ l ++ [x].
Proof.
  intros H. apply (f_equal length) in H. rewrite length_app in H. simpl in H. lia.
Qed.

(** Only the first branch of the loop body opens an accumulator. *)
Lemma opens_question_iff qs cur raw prompt :
  opens_question (qs, cur) raw prompt ↔
  ∃ c0 rest a,
    PyStr.strip raw = Str c0 rest
    ∧ PyStr.isdigit c0 = true
    ∧ PyStr.split_once ". " (Str c0 rest) = Some (a, prompt).
Proof.
  unfold opens_question, parse_line. cbn [fst snd].
  destruct (PyStr.strip raw) as [|c0 rest].
  { split; [|by intros (? & ? & ? & ? & _)].
    intros [= Hqs Hcur]. exfalso. subst cur. by apply list_neq_app_cons in Hqs. }
  remember (Str c0 rest) as line eqn:Hline.
  destruct (PyStr.isdigit c0) eqn:Hd; cbn [andb].
  - destruct (PyStr.contains ". " line) eqn:Hc; cbn [andb].
    + destruct (split_snd_contains _ _ Hc) as (a & b & Hs).
      unfold split_snd. rewrite Hs. cbn [mbind outcome_bind]. split.
      * intros [= ->]. exists c0, rest, a. by rewrite <- Hline.
      * intros (c1 & rest1 & a1 & Heq & _ & Hs1).
        rewrite <- Heq, Hs in Hs1. by injection Hs1 as _ ->.
    + split.
      * intros Hopen. exfalso.
        destruct (PyStr.char_in c0 "ABCD" && PyStr.contains ") " line).
        { destruct (split_pair ") " line) as [p|]; [|done]. cbn [mbind outcome_bind] in Hopen.
          injection Hopen as Hqs Hcur. destruct cur; [|done].
          simpl in Hqs. by apply list_neq_app_cons in Hqs. }
        destruct (PyStr.startswith "CORRECT:" line).
        { destruct cur as [q|]; [|done].
          destruct (split_snd ":" line); [|done]. cbn [mbind outcome_bind] in Hopen.
          injection Hopen as Hqs _. by apply list_neq_app_cons in Hqs. }
        destruct (PyStr.startswith "EXPLANATION:" line).
        { destruct cur as [q|]; [|done].
          destruct (split_snd ":" line); [|done]. cbn [mbind outcome_bind] in Hopen. done. }
        injection Hopen as Hqs Hcur. subst cur. by apply list_neq_app_cons in Hqs.
      * intros (c1 & rest1 & a1 & Heq & _ & Hs1). rewrite <- Heq in Hs1.
        unfold PyStr.contains in Hc. by rewrite Hs1 in Hc.
  - split;
      [|intros (c1 & rest1 & a1 & Heq & Hd1 & _); rewrite Hline in Heq;
        injection Heq as <- _; by rewrite Hd in Hd1].
    intros Hopen. exfalso.
    destruct (PyStr.char_in c0 "ABCD" && PyStr.contains ") " line).
    { destruct (split_pair ") " line) as [p|]; [|done]. cbn [mbind outcome_bind] in Hopen.
      injection Hopen as Hqs Hcur. destruct cur; [|done].
      simpl in Hqs. by apply list_neq_app_cons in Hqs. }
    destruct (PyStr.startswith "CORRECT:" line).
    { destruct cur as [q|]; [|done].
      destruct (split_snd ":" line); [|done]. cbn [mbind outcome_bind] in Hopen.
      injection Hopen as Hqs _. by apply list_neq_app_cons in Hqs. }
    destruct (PyStr.startswith "EXPLANATION:" line).
    { destruct cur as [q|]; [|done].
      destruct (split_snd ":" line); [|done]. cbn [mbind outcome_bind] in Hopen. done. }
    injection Hopen as Hqs Hcur. subst cur. by apply list_neq_app_cons in Hqs.
Qed.

(** Below 128, the digits of [str.isdigit] are the ten decimal digits. *)
Lemma isdigit_ascii (d : N) :
  (d < 128)%N → PyStr.isdigit d = PyStr.char_in d "0123456789".
Proof.
  intros Hd. unfold PyStr.isdigit.
  destruct (N.ltb_spec d 128) as [_|]; [|lia].
  destruct (N.leb_spec 48 d) as [Hlo|Hlo]; cbn [andb].
  - destruct (N.leb_spec d 57) as [Hhi|Hhi].
    + assert (d = 48 ∨ d = 49 ∨ d = 50 ∨ d = 51 ∨ d = 52 ∨ d = 53 ∨ d = 54
              ∨ d = 55 ∨ d = 56 ∨ d = 57)%N as Hcases by lia.
      destruct Hcases as [->|[->|[->|[->|[->|[->|[->|[->|[->| ->]]]]]]]]]; by vm_compute.
    + symmetry. simpl. repeat match goal with
             | |- context [(d =? ?k)%N] => destruct (N.eqb_spec d k); [lia|]
             end. done.
  - symmetry. simpl. repeat match goal with
             | |- context [(d =? ?k)%N] => destruct (N.eqb_spec d k); [lia|]
             end. done.
Qed.

(** C7, as the code has it: a line opens a new accumulator exactly when,
    once stripped, its first character is a digit for [str.isdigit] and
    the text ". " occurs somewhere in it; the prompt of the new
    accumulator is what follows the first occurrence of ". ", its option
    mapping is empty and it has neither a correct label nor an
    explanation.  No other line opens an accumulator.  Among the ASCII
    characters the digits are the ten decimal digits. *)
Theorem new_question_rule (st : parser_state) (raw : str) :
  ((∃ prompt, opens_question st raw prompt) ↔
   (∃ d rest, PyStr.strip raw = Str d rest
              ∧ PyStr.isdigit d = true)
   ∧ (∃ pre post, PyStr.strip raw = pre +:+ ". " +:+ post))
  ∧ (∀ prompt,
       opens_question st raw prompt →
       ∃ pre,
         PyStr.strip raw = pre +:+ ". " +:+ prompt
         ∧ ∀ pre' post',
             PyStr.strip raw = pre' +:+ ". " +:+ post' →
             (PyStr.len pre ≤ PyStr.len pre')%nat)
  ∧ (∀ d, (d < 128)%N →
          PyStr.isdigit d = PyStr.char_in d "0123456789").
Proof.
  destruct st as [qs cur]. split; [split|split].
  - intros [prompt Hopen]. apply opens_question_iff in Hopen
      as (c0 & rest & a & Hline & Hd & Hs).
    split.
    + by exists c0, rest.
    + exists a, prompt. rewrite Hline. by apply split_once_sound.
  - intros [(d & rest & Hline & Hd) (pre & post & Hsep)].
    rewrite Hline in Hsep.
    destruct (split_once_complete _ _ _ _ Hsep) as [[a b] Hs].
    exists b. apply opens_question_iff. by exists d, rest, a.
  - intros prompt Hopen. apply opens_question_iff in Hopen
      as (c0 & rest & a & Hline & Hd & Hs).
    exists a. rewrite Hline. split.
    + by apply split_once_sound.
    + by apply (split_once_leftmost _ _ _ _ Hs).
  - apply isdigit_ascii.
Qed.
(** ** Words of a string *)

Lemma split_ws_space c s :
  PyStr.isspace c = true → PyStr.split_ws (Str c s) = PyStr.split_ws s.
Proof. intros H. simpl. by rewrite H. Qed.

Lemma split_ws_letter c s :
  PyStr.isspace c = false →
  PyStr.split_ws (Str c s) =
  match s with
  | EmptyStr => [Str c ""]
  | Str c' _ =>
      if PyStr.isspace c' then Str c "" :: PyStr.split_ws s
      else match PyStr.split_ws s with
           | w :: ws => Str c w :: ws
           | [] => [Str c ""]
           end
  end.
Proof. intros H. destruct s; simpl; by rewrite H. Qed.

Lemma split_ws_starts c s :
  PyStr.isspace c = false → ∃ w ws, PyStr.split_ws (Str c s) = Str c w :: ws.
Proof.
  revert c. induction s as [|c' s IH]; intros c Hc; rewrite split_ws_letter by done.
  - by eexists _, _.
  - destruct (PyStr.isspace c') eqn:Hc'; [by eexists _, _|].
    destruct (IH c' Hc') as (w & ws & ->). by eexists _, _.
Qed.

Lemma split_ws_app a c b :
  PyStr.isspace c = true →
  PyStr.split_ws (a +:+ Str c b) = PyStr.split_ws a ++ PyStr.split_ws b.
Proof.
  intros Hc. induction a as [|d a IH].
  - rewrite app_empty_l. by rewrite split_ws_space.
  - rewrite app_cons. destruct (PyStr.isspace d) eqn:Hd.
    + by rewrite !split_ws_space.
    + rewrite !split_ws_letter by done. destruct a as [|d' a].
      * rewrite app_empty_l, Hc. by rewrite split_ws_space.
      * rewrite app_cons. rewrite app_cons in IH.
        destruct (PyStr.isspace d') eqn:Hd'.
        -- by rewrite IH.
        -- rewrite IH. destruct (split_ws_starts d' a Hd') as (w & ws & ->). done.
Qed.

Lemma split_ws_word w :
  no_space w = true → w ≠ "" → PyStr.split_ws w = [w].
Proof.
  induction w as [|c w IH]; [done|]. simpl no_space.
  intros [Hc Hw]%andb_true_iff _. apply negb_true_iff in Hc.
  rewrite split_ws_letter by done. destruct w as [|c' w]; [done|].
  simpl in Hw. apply andb_true_iff in Hw as [Hc' Hw]. apply negb_true_iff in Hc'.
  rewrite Hc'. rewrite IH; [done| |done]. simpl. by rewrite Hc'.
Qed.

Lemma split_ws_no_space s :
  no_space s = true → ∀ x, x ∈ PyStr.split_ws s → x = s ∧ s ≠ "".
Proof.
  intros Hs x Hx. destruct s as [|c s]; [by apply elem_of_nil in Hx|].
  rewrite split_ws_word in Hx by done. by apply list_elem_of_singleton in Hx.
Qed.

Lemma first_space s :
  no_space s = true
  ∨ ∃ a c b, s = a +:+ Str c b ∧ no_space a = true ∧ PyStr.isspace c = true.
Proof.
  induction s as [|c s IH]; [by left|].
  destruct (PyStr.isspace c) eqn:Hc.
  - right. by exists "", c, s.
  - destruct IH as [Hs|(a & c' & b & -> & Ha & Hc')].
    + left. simpl. by rewrite Hc, Hs.
    + right. exists (Str c a), c', b. split; [done|]. split; [|done].
      simpl. by rewrite Hc, Ha.
Qed.

Lemma split_ws_whole_word_1 n : ∀ s x,
  (PyStr.len s ≤ n)%nat → x ∈ PyStr.split_ws s → whole_word x s.
Proof.
  induction n as [|n IH]; intros s x Hlen Hx.
  - destruct s; [by apply elem_of_nil in Hx|simpl in Hlen; lia].
  - destruct (first_space s) as [Hs|(a & c & b & -> & Ha & Hc)].
    + destruct (split_ws_no_space s Hs x Hx) as [-> Hne].
      split; [done|]. split; [done|]. exists "", "".
      rewrite app_empty_l, app_empty_r. auto.
    + rewrite split_ws_app in Hx by done. apply elem_of_app in Hx as [Hx|Hx].
      * destruct (split_ws_no_space a Ha x Hx) as [-> Hne].
        split; [done|]. split; [done|]. exists "", (Str c b).
        rewrite app_empty_l. split; [done|]. split; [by left|].
        right. by exists c, b.
      * rewrite length_app_str in Hlen. simpl in Hlen.
        destruct (IH b x ltac:(lia) Hx) as (Hne & Hns & pre & post & -> & Hpre & Hpost).
        split; [done|]. split; [done|].
        exists (a +:+ Str c pre), post. split.
        { by rewrite app_assoc_str, app_cons. }
        split; [|done]. right. destruct Hpre as [->|(r & c' & -> & Hc')].
        -- by exists a, c.
        -- exists (a +:+ Str c r), c'. by rewrite app_assoc_str, app_cons.
Qed.

Lemma split_ws_whole_word_2 s x : whole_word x s → x ∈ PyStr.split_ws s.
Proof.
  intros (Hne & Hns & pre & post & -> & Hpre & Hpost).
  assert (x ∈ PyStr.split_ws (x +:+ post)) as Hx.
  { destruct Hpost as [->|(c & r & -> & Hc)].
    - rewrite app_empty_r, split_ws_word by done. by apply list_elem_of_singleton.
    - rewrite split_ws_app, split_ws_word by done. apply elem_of_app. left.
      by apply list_elem_of_singleton. }
  destruct Hpre as [->|(r & c & -> & Hc)]; [done|].
  rewrite app_assoc_str, app_cons, app_empty_l, split_ws_app by done.
  apply elem_of_app. by right.
Qed.

(** The words of [s.split()] are the whole words of [s]. *)
Lemma split_ws_whole_word s x : x ∈ PyStr.split_ws s ↔ whole_word x s.
Proof.
  split; [by apply (split_ws_whole_word_1 (PyStr.len s))|apply split_ws_whole_word_2].
Qed.

(** ** Stripping *)

Lemma rstrip_split s : ∃ ws, s = PyStr.rstrip s +:+ ws ∧ all_space ws = true.
Proof.
  induction s as [|c s (ws & Hs & Hws)]; [by exists ""|].
  simpl. destruct (PyStr.rstrip s) as [|d r] eqn:Hr.
  - rewrite app_empty_l in Hs. subst ws. destruct (PyStr.isspace c) eqn:Hc.
    + exists (Str c s). split; [done|]. simpl. by rewrite Hc, Hws.
    + by exists s.
  - exists ws. by rewrite app_cons, <- Hs.
Qed.

Lemma lstrip_split s : ∃ ws, s = ws +:+ PyStr.lstrip s ∧ all_space ws = true.
Proof.
  induction s as [|c s (ws & Hs & Hws)]; [by exists ""|].
  simpl. destruct (PyStr.isspace c) eqn:Hc.
  - exists (Str c ws). rewrite app_cons, <- Hs. split; [done|]. simpl. by rewrite Hc.
  - by exists "".
Qed.

Lemma all_space_app s t : all_space (s +:+ t) = all_space s && all_space t.
Proof.
  induction s as [|c s IH]; [done|]. rewrite app_cons. simpl.
  by rewrite IH, andb_assoc.
Qed.

Lemma strip_empty_all_space s : PyStr.strip s = "" → all_space s = true.
Proof.
  unfold PyStr.strip. intros H.
  destruct (rstrip_split s) as (ws & Hs & Hws).
  destruct (lstrip_split (PyStr.rstrip s)) as (ws' & Hr & Hws').
  rewrite H, app_empty_r in Hr. rewrite Hs, Hr, all_space_app. by rewrite Hws, Hws'.
Qed.

(** The white space, as ranges of code points. *)
Lemma isspace_spec c :
  PyStr.isspace c = true ↔
  (9 ≤ c ≤ 13 ∨ 28 ≤ c ≤ 32 ∨ c = 133 ∨ c = 160 ∨ c = 5760
   ∨ 8192 ≤ c ≤ 8202 ∨ c = 8232 ∨ c = 8233 ∨ c = 8239 ∨ c = 8287
   ∨ c = 12288)%N.
Proof.
  unfold PyStr.isspace.
  rewrite !orb_true_iff, !andb_true_iff, !N.leb_le, !N.eqb_eq. tauto.
Qed.

(** White space has no case. *)
Lemma lower_from_all_space before s :
  all_space s = true → PyStr.lower_from before s = s.
Proof.
  revert before. induction s as [|c s IH]; intros before Hs; [done|].
  simpl in Hs. apply andb_true_iff in Hs as [Hc Hs]. simpl.
  rewrite (IH _ Hs), Hc.
  destruct (N.ltb_spec c 128); [|done].
  unfold PyStr.ascii_lower.
  destruct (N.leb_spec 65 c); [|done]. destruct (N.leb_spec c 90); [|done].
  apply isspace_spec in Hc. lia.
Qed.

Lemma all_space_lower s : all_space s = true → all_space (PyStr.lower s) = true.
Proof. intros Hs. unfold PyStr.lower. by rewrite lower_from_all_space. Qed.

Lemma all_space_no_word s x : all_space s = true → ¬ whole_word x s.
Proof.
  intros Hs (Hne & Hns & pre & post & -> & _).
  rewrite !all_space_app in Hs.
  apply andb_true_iff in Hs as [_ [Hx _]%andb_true_iff].
  destruct x as [|c x]; [done|]. simpl in Hx, Hns.
  apply andb_true_iff in Hx as [Hc _]. by rewrite Hc in Hns.
Qed.

(** ** The end of a conversation *)

Lemma should_end_spec question :
  _should_end_conversation question = true ↔ says_end_phrase question.
Proof.
  unfold _should_end_conversation, says_end_phrase. rewrite existsb_exists.
  split; intros (phrase & Hin & Hw); exists phrase.
  - apply bool_decide_eq_true in Hw. split; [by apply list_elem_of_In|].
    by apply split_ws_whole_word.
  - split; [by apply list_elem_of_In|]. apply bool_decide_eq_true.
    by apply split_ws_whole_word.
Qed.

Lemma end_phrase_not_blank question :
  says_end_phrase question → PyStr.truthy (PyStr.strip question) = true.
Proof.
  intros (phrase & _ & Hw). destruct (PyStr.strip question) eqn:Hs; [|done].
  exfalso. apply strip_empty_all_space, all_space_lower in Hs.
  by apply (all_space_no_word _ phrase) in Hs.
Qed.

(** C6: [ask_question] ends the conversation exactly when the question
    holds one of goodbye, bye, exit, quit, end as a whole word delimited
    by white space, whatever the case of its letters; it then sends
    nothing to the model, sets [conversation_active] to false and
    returns the fixed farewell.  The questions [bye], [ok bye then] and
    [BYE] end the conversation, [bicycle] does not. *)
Theorem end_phrase_detection (complete : list message → outcome str)
    (self : AstraAI) (question : str) :
  conversation_active self = true →
  (conversation_active (after (ask_question complete self question)) = false
   ↔ says_end_phrase question)
  ∧ (says_end_phrase question →
     ask_question complete self question
     = {| after := set_conversation_active false self;
          answer_text := Return farewell;
          model_calls := [] |})
  ∧ says_end_phrase "bye" ∧ says_end_phrase "ok bye then" ∧ says_end_phrase "BYE"
  ∧ ¬ says_end_phrase "bicycle".
Proof.
  intros Hact. split; [split|split].
  - unfold ask_question.
    destruct (PyStr.truthy (PyStr.strip question)); simpl; [|by rewrite Hact].
    destruct (_should_end_conversation question) eqn:Hend.
    { intros _. by apply should_end_spec. }
    destruct (_generate_response complete _) as [response|e]; simpl.
    + unfold _update_chat_history. destruct (_ && _); simpl; by rewrite Hact.
    + by rewrite Hact.
  - intros Hsays. unfold ask_question.
    rewrite (end_phrase_not_blank _ Hsays). simpl.
    by rewrite (proj2 (should_end_spec _) Hsays).
  - intros Hsays. unfold ask_question.
    rewrite (end_phrase_not_blank _ Hsays). simpl.
    by rewrite (proj2 (should_end_spec _) Hsays).
  - split_and!; try (apply should_end_spec; by vm_compute).
    intros H%should_end_spec. by vm_compute in H.
Qed.

(** ** The context sent to the model *)

Lemma last_n_suffix {A} (n : nat) (l : list A) :
  (∃ older, l = older ++ last_n n l) ∧ length (last_n n l) = Nat.min n (length l).
Proof.
  unfold last_n. split.
  - exists (take (length l - n) l). by rewrite take_drop.
  - rewrite length_drop. lia.
Qed.

Lemma take_prefix n s :
  (∃ rest, s = PyStr.take n s +:+ rest) ∧ (PyStr.len (PyStr.take n s) ≤ n)%nat.
Proof.
  revert s. induction n as [|n IH]; intros s.
  - split; [by exists s|simpl; lia].
  - destruct s as [|c s]; [split; [by exists ""|simpl; lia]|].
    destruct (IH s) as [[rest Hrest] Hlen]. simpl. split; [|lia].
    exists rest. by rewrite app_cons, <- Hrest.
Qed.

Lemma take_truthy s :
  PyStr.truthy (PyStr.take 1500 s) = PyStr.truthy s.
Proof. by destruct s. Qed.

(** C9: for a question that is not blank and holds no end phrase, the
    one message list sent to the model is the fixed system message, then
    the last three turns of the history in their order (all of them when
    there are fewer), then, when the document name and the context are
    both set, one system message that names the document and carries the
    first 1500 characters of the context at most, then the question as a
    user message. *)
Theorem context_assembly (complete : list message → outcome str)
    (self : AstraAI) (question : str) :
  PyStr.strip question ≠ "" →
  ¬ says_end_phrase question →
  ∃ recent document,
    model_calls (ask_question complete self question)
    = [system_message :: recent ++ document ++ [user_message question]]
    ∧ (∃ older, chat_history self = older ++ recent)
    ∧ length recent = Nat.min 3 (length (chat_history self))
    ∧ ((∃ name,
          document_name self = Some name ∧ name ≠ "" ∧ context self ≠ ""
          ∧ document = [document_message name (context self)])
       ∨ ((document_name self = None ∨ document_name self = Some ""
           ∨ context self = "")
          ∧ document = []))
    ∧ (∃ rest, context self = PyStr.take 1500 (context self) +:+ rest)
    ∧ (PyStr.len (PyStr.take 1500 (context self)) ≤ 1500)%nat.
Proof.
  intros Hblank Hend.
  exists (last_n 3 (chat_history self)),
    (if PyStr.truthy (context self) && truthy_opt (document_name self)
     then [document_message (format_opt (document_name self)) (context self)]
     else []).
  split.
  { unfold ask_question.
    destruct (PyStr.strip question) eqn:Hs; [done|]. simpl.
    destruct (_should_end_conversation question) eqn:He.
    { by apply should_end_spec in He. }
    assert (_prepare_messages self question
            = system_message :: last_n 3 (chat_history self)
              ++ (if PyStr.truthy (context self) && truthy_opt (document_name self)
                  then [document_message (format_opt (document_name self)) (context self)]
                  else [])
              ++ [user_message question]) as ->.
    { unfold _prepare_messages. cbv zeta.
      destruct (PyStr.truthy (context self)) eqn:Hc.
      - rewrite take_truthy, Hc. cbn [andb].
        destruct (truthy_opt (document_name self)); [|done].
        by rewrite <- app_assoc.
      - done. }
    by destruct (_generate_response complete _). }
  destruct (last_n_suffix 3 (chat_history self)) as [Hold Hlen].
  destruct (take_prefix 1500 (context self)) as [Hrest Htake].
  split; [done|]. split; [done|]. split; [|done].
  destruct (context self) as [|c ctx]; simpl.
  { right. split; [|done]. by right; right. }
  destruct (document_name self) as [[|d name]|]; simpl.
  - right. split; [|done]. right. by left.
  - left. by eexists.
  - right. split; [|done]. by left.
Qed.

(** ** Lines of a text *)

Lemma strip_cons_space w h :
  PyStr.isspace w = true → PyStr.strip (Str w h) = PyStr.strip h.
Proof.
  intros Hw. unfold PyStr.strip. simpl.
  destruct (PyStr.rstrip h) as [|d r]; [by rewrite Hw|].
  change (PyStr.lstrip (Str w (Str d r)))
    with (if PyStr.isspace w then PyStr.lstrip (Str d r) else Str w (Str d r)).
  by rewrite Hw.
Qed.

Lemma rstrip_snoc_space w h :
  PyStr.isspace w = true → PyStr.rstrip (h +:+ Str w "") = PyStr.rstrip h.
Proof.
  intros Hw. induction h as [|c h IH].
  - rewrite app_empty_l. simpl. by rewrite Hw.
  - rewrite app_cons. simpl. by rewrite IH.
Qed.

Lemma strip_snoc_space w h :
  PyStr.isspace w = true → PyStr.strip (h +:+ Str w "") = PyStr.strip h.
Proof. intros Hw. unfold PyStr.strip. by rewrite rstrip_snoc_space. Qed.

Lemma split_char_nonempty sep s : ∃ h t, PyStr.split_char sep s = h :: t.
Proof.
  induction s as [|c s (h & t & IH)]; [by eexists _, _|].
  simpl. destruct (N.eqb_spec c sep); [by eexists _, _|].
  rewrite IH. by eexists _, _.
Qed.

Lemma split_char_snoc_sep sep s :
  PyStr.split_char sep (s +:+ Str sep "") = PyStr.split_char sep s ++ [""].
Proof.
  induction s as [|c s IH].
  - rewrite app_empty_l. simpl. by destruct (N.eqb_spec sep sep).
  - rewrite app_cons. simpl. destruct (N.eqb_spec c sep); [by rewrite IH|].
    rewrite IH. by destruct (split_char_nonempty sep s) as (h & t & ->).
Qed.

Lemma split_char_snoc_other sep w s :
  w ≠ sep →
  ∃ init lst,
    PyStr.split_char sep s = init ++ [lst]
    ∧ PyStr.split_char sep (s +:+ Str w "") = init ++ [lst +:+ Str w ""].
Proof.
  intros Hw. induction s as [|c s (init & lst & Hs & Hsw)].
  - exists [], "". rewrite app_empty_l. simpl. by destruct (N.eqb_spec w sep).
  - rewrite app_cons. simpl. destruct (N.eqb_spec c sep).
    + exists ("" :: init), lst. by rewrite Hs, Hsw.
    + rewrite Hs, Hsw. destruct init as [|h init]; simpl.
      * by exists [], (Str c lst).
      * by exists (Str c h :: init), lst.
Qed.

Lemma split_char_lf_free a b :
  lf_free a = true →
  PyStr.split_char PyStr.LF (a +:+ Str PyStr.LF b) = a :: PyStr.split_char PyStr.LF b.
Proof.
  induction a as [|c a IH]; intros Ha.
  - rewrite app_empty_l. simpl. by destruct (N.eqb_spec PyStr.LF PyStr.LF).
  - rewrite app_cons. simpl in *. destruct (N.eqb_spec c PyStr.LF); [done|].
    by rewrite IH.
Qed.

Lemma split_char_one_line a :
  lf_free a = true → PyStr.split_char PyStr.LF a = [a].
Proof.
  induction a as [|c a IH]; intros Ha; [done|].
  simpl in *. destruct (N.eqb_spec c PyStr.LF); [done|]. by rewrite IH.
Qed.

Lemma split_char_unlines l ls :
  Forall (λ s, lf_free s = true) (l :: ls) →
  PyStr.split_char PyStr.LF (unlines (l :: ls)) = l :: ls.
Proof.
  revert l. induction ls as [|l' ls IH]; intros l Hall.
  - apply Forall_cons in Hall as [Hl _]. by apply split_char_one_line.
  - apply Forall_cons in Hall as [Hl Hall].
    change (unlines (l :: l' :: ls)) with (l +:+ newline +:+ unlines (l' :: ls)).
    unfold newline. rewrite app_cons, app_empty_l.
    rewrite split_char_lf_free by done. by rewrite IH.
Qed.

(** ** The parser on lines *)

Lemma parse_line_strip st r1 r2 :
  PyStr.strip r1 = PyStr.strip r2 → parse_line st r1 = parse_line st r2.
Proof. intros H. destruct st. unfold parse_line. by rewrite H. Qed.

Lemma parse_line_blank st raw : PyStr.strip raw = "" → parse_line st raw = Return st.
Proof. intros H. destruct st. unfold parse_line. by rewrite H. Qed.

Lemma parse_lines_app st l1 l2 :
  parse_lines st (l1 ++ l2) = st' ← parse_lines st l1; parse_lines st' l2.
Proof.
  revert st. induction l1 as [|l l1 IH]; intros st; [done|].
  simpl. destruct (parse_line st l) as [st'|e]; simpl; [apply IH|done].
Qed.

Lemma parse_lines_cons_space st w s :
  PyStr.isspace w = true →
  parse_lines st (PyStr.split_char PyStr.LF (Str w s))
  = parse_lines st (PyStr.split_char PyStr.LF s).
Proof.
  intros Hw. simpl. destruct (N.eqb_spec w PyStr.LF).
  - simpl. by rewrite parse_line_blank.
  - destruct (split_char_nonempty PyStr.LF s) as (h & t & ->). simpl.
    by rewrite (parse_line_strip st _ h) by by apply strip_cons_space.
Qed.

Lemma parse_lines_snoc_space st w s :
  PyStr.isspace w = true →
  parse_lines st (PyStr.split_char PyStr.LF (s +:+ Str w ""))
  = parse_lines st (PyStr.split_char PyStr.LF s).
Proof.
  intros Hw. destruct (decide (w = PyStr.LF)) as [->|Hne].
  - rewrite split_char_snoc_sep, parse_lines_app.
    destruct (parse_lines st _) as [st'|e]; [|done]. simpl.
    by rewrite parse_line_blank.
  - destruct (split_char_snoc_other PyStr.LF w s Hne) as (init & lst & -> & ->).
    rewrite !parse_lines_app.
    destruct (parse_lines st init) as [st'|e]; [|done]. simpl.
    by rewrite (parse_line_strip st' _ lst) by by apply strip_snoc_space.
Qed.

Lemma parse_lines_app_spaces st s ws :
  all_space ws = true →
  parse_lines st (PyStr.split_char PyStr.LF (s +:+ ws))
  = parse_lines st (PyStr.split_char PyStr.LF s).
Proof.
  revert s. induction ws as [|w ws IH]; intros s Hws.
  - by rewrite app_empty_r.
  - simpl in Hws. apply andb_true_iff in Hws as [Hw Hws].
    change (Str w ws) with (Str w "" +:+ ws).
    rewrite <- app_assoc_str, IH by done. by apply parse_lines_snoc_space.
Qed.

Lemma parse_lines_spaces_app st s ws :
  all_space ws = true →
  parse_lines st (PyStr.split_char PyStr.LF (ws +:+ s))
  = parse_lines st (PyStr.split_char PyStr.LF s).
Proof.
  induction ws as [|w ws IH]; intros Hws; [done|].
  simpl in Hws. apply andb_true_iff in Hws as [Hw Hws].
  rewrite app_cons, parse_lines_cons_space by done. by apply IH.
Qed.

(** Stripping the whole text first does not change what the loop does. *)
Lemma parse_lines_strip_text st text :
  parse_lines st (PyStr.split_char PyStr.LF (PyStr.strip text))
  = parse_lines st (PyStr.split_char PyStr.LF text).
Proof.
  unfold PyStr.strip.
  destruct (rstrip_split text) as (ws & Ht & Hws).
  destruct (lstrip_split (PyStr.rstrip text)) as (ws' & Hr & Hws').
  rewrite Ht at 2. rewrite parse_lines_app_spaces by done.
  rewrite Hr at 2. by rewrite parse_lines_spaces_app.
Qed.

Lemma parse_candidates_unlines lines :
  Forall (λ s, lf_free s = true) lines →
  parse_candidates (unlines lines)
  = st ← parse_lines ([], None) lines; Return (flush_last st).
Proof.
  intros Hall. unfold parse_candidates. rewrite parse_lines_strip_text.
  destruct lines as [|l ls]; [done|]. by rewrite split_char_unlines.
Qed.

(** ** What each kind of line does *)

Lemma explanation_line_first_char raw :
  is_explanation_line raw = true →
  ∃ rest, PyStr.strip raw = Str 69 rest
          ∧ PyStr.startswith "EXPLANATION:" (Str 69 rest) = true.
Proof.
  unfold is_explanation_line. intros H.
  destruct (startswith_inv _ _ H) as [r Hr]. exists ("XPLANATION:" +:+ r).
  split; [exact Hr|]. exact (startswith_app "EXPLANATION:" r).
Qed.

Lemma parse_line_explanation raw qs :
  is_explanation_line raw = true →
  (∀ acc, parse_line (qs, Some acc) raw
          = Return (qs ++ [set_explanation (explanation_of_line raw) acc], None))
  ∧ parse_line (qs, None) raw = Return (qs, None).
Proof.
  intros H. destruct (explanation_line_first_char raw H) as (rest & Hs & He).
  destruct (startswith_contains_colon "EXPLANATION" _ He) as (a & b & Hsplit).
  unfold parse_line, explanation_of_line. rewrite Hs.
  change (PyStr.isdigit 69) with false.
  change (PyStr.char_in 69 "ABCD") with false. cbn [andb].
  change (PyStr.startswith "CORRECT:" (Str 69 rest)) with false.
  rewrite He. unfold split_snd. rewrite Hsplit. done.
Qed.

Lemma parse_line_question raw :
  is_question_line raw = true →
  ∃ prompt, ∀ qs cur,
    parse_line (qs, cur) raw
    = Return (qs ++ option_list cur, Some (fresh_question prompt)).
Proof.
  unfold is_question_line, parse_line.
  destruct (PyStr.strip raw) as [|c0 rest]; [done|]. intros H. rewrite H.
  apply andb_true_iff in H as [_ Hc].
  destruct (split_snd_contains _ _ Hc) as (a & b & Hs).
  exists b. intros qs cur. unfold split_snd. by rewrite Hs.
Qed.

Lemma set_option_explanation k v q : explanation (set_option k v q) = explanation q.
Proof. done. Qed.

Lemma parse_line_quiet raw :
  is_question_line raw = false →
  is_explanation_line raw = false →
  ∃ f : QuizQuestion → QuizQuestion,
    (∀ acc, explanation (f acc) = explanation acc)
    ∧ ∀ qs,
        parse_line (qs, None) raw = Return (qs, None)
        ∧ ∀ acc, parse_line (qs, Some acc) raw = Return (qs, Some (f acc)).
Proof.
  unfold is_question_line, is_explanation_line, parse_line.
  destruct (PyStr.strip raw) as [|c0 rest]; [intros _ _; by exists id|].
  remember (Str c0 rest) as line eqn:Hline.
  intros -> He.
  destruct (PyStr.char_in c0 "ABCD" && PyStr.contains ") " line) eqn:Ho.
  { apply andb_true_iff in Ho as [_ Hc].
    destruct (split_snd_contains _ _ Hc) as (a & b & Hs).
    unfold split_pair. rewrite Hs. by eexists (set_option _ _). }
  destruct (PyStr.startswith "CORRECT:" line) eqn:Hc.
  { destruct (startswith_contains_colon "CORRECT" line Hc) as (a & b & Hs).
    unfold split_snd. rewrite Hs. by eexists (set_correct _). }
  rewrite He. by exists id.
Qed.

(** What a line adds to the list does not depend on the list. *)
Lemma parse_line_emit cur raw :
  ∃ out cur', ∀ qs, parse_line (qs, cur) raw = Return (qs ++ out, cur').
Proof.
  destruct (is_question_line raw) eqn:Hq.
  { destruct (parse_line_question raw Hq) as [prompt H]. by eexists _, _. }
  destruct (is_explanation_line raw) eqn:He.
  { destruct cur as [acc|].
    - eexists _, _. intros qs. by apply parse_line_explanation.
    - exists [], None. intros qs. rewrite app_nil_r. by apply parse_line_explanation. }
  destruct (parse_line_quiet raw Hq He) as (f & _ & Hf).
  destruct cur as [acc|].
  - exists [], (Some (f acc)). intros qs. rewrite app_nil_r. by apply Hf.
  - exists [], None. intros qs. rewrite app_nil_r. by apply Hf.
Qed.

Lemma parse_lines_cons st l lines :
  parse_lines st (l :: lines) = st' ← parse_line st l; parse_lines st' lines.
Proof. reflexivity. Qed.

Lemma bind_return {A B} (a : A) (k : A → outcome B) : (x ← Return a; k x) = k a.
Proof. reflexivity. Qed.

Lemma parse_lines_emit cur lines :
  ∃ out cur', ∀ qs, parse_lines (qs, cur) lines = Return (qs ++ out, cur').
Proof.
  revert cur. induction lines as [|l lines IH]; intros cur.
  - exists [], cur. intros qs. by rewrite app_nil_r.
  - destruct (parse_line_emit cur l) as (out1 & cur1 & H1).
    destruct (IH cur1) as (out2 & cur2 & H2).
    exists (out1 ++ out2), cur2. intros qs.
    by rewrite parse_lines_cons, H1, bind_return, H2, app_assoc.
Qed.

(** An open accumulator never has an explanation. *)
Lemma parse_line_unexplained cur raw qs qs' cur' :
  unexplained cur →
  parse_line (qs, cur) raw = Return (qs', cur') → unexplained cur'.
Proof.
  intros Hcur. destruct (is_question_line raw) eqn:Hq.
  { destruct (parse_line_question raw Hq) as [prompt ->].
    intros [= _ <-] q [= <-]. done. }
  destruct (is_explanation_line raw) eqn:He.
  { destruct cur as [acc|].
    - rewrite (proj1 (parse_line_explanation raw qs He)). by intros [= _ <-].
    - rewrite (proj2 (parse_line_explanation raw qs He)). by intros [= _ <-]. }
  destruct (parse_line_quiet raw Hq He) as (f & Hexp & Hf).
  destruct cur as [acc|].
  - rewrite (proj2 (Hf qs)). intros [= _ <-] q [= <-]. rewrite Hexp. by apply Hcur.
  - rewrite (proj1 (Hf qs)). by intros [= _ <-].
Qed.

Lemma parse_lines_unexplained lines : ∀ cur qs qs' cur',
  unexplained cur →
  parse_lines (qs, cur) lines = Return (qs', cur') → unexplained cur'.
Proof.
  induction lines as [|l lines IH]; intros cur qs qs' cur' Hcur.
  - by intros [= _ <-].
  - rewrite parse_lines_cons.
    destruct (parse_line (qs, cur) l) as [[qs1 cur1]|e] eqn:Hl; [|done].
    rewrite bind_return. apply IH. by eapply parse_line_unexplained.
Qed.

Lemma unexplained_invalid q : explanation q = None → _validate_question q = false.
Proof.
  intros H. unfold _validate_question. rewrite H.
  destruct (negb (forallb _ _)); [done|].
  destruct (negb _); [done|]. simpl. by rewrite orb_true_r.
Qed.

Lemma flush_last_unexplained qs cur : unexplained cur → flush_last (qs, cur) = qs.
Proof. intros H. destruct cur as [q|]; [|done]. simpl. by rewrite (H q). Qed.

Lemma flush_last_app qs out cur :
  flush_last (qs ++ out, cur) = qs ++ flush_last (out, cur).
Proof.
  destruct cur as [q|]; [|done]. simpl.
  destruct (truthy_opt (explanation q)); [|done]. by rewrite app_assoc.
Qed.

(** ** A response that lacks an explanation line *)

Lemma parse_response_unlines lines st :
  Forall (λ s, lf_free s = true) lines →
  parse_lines ([], None) lines = Return st →
  parse_candidates (unlines lines) = Return (flush_last st)
  ∧ _parse_quiz_response (unlines lines) = filter (λ q, _validate_question q = true) (flush_last st).
Proof.
  intros Hlf Hst. unfold _parse_quiz_response.
  by rewrite parse_candidates_unlines, Hst.
Qed.

Lemma filter_unexplained q :
  explanation q = None → filter (λ q, _validate_question q = true) [q] = [].
Proof.
  intros H. rewrite filter_cons_False; [done|].
  by rewrite unexplained_invalid.
Qed.

(** After the removed line, the two runs add the same valid questions. *)
Lemma tail_agrees post : ∀ acc,
  no_stray_explanation post = true →
  explanation acc = None →
  ∃ later,
    (∀ qs, ∃ st, parse_lines (qs, None) post = Return st
                 ∧ filter (λ q, _validate_question q = true) (flush_last st) = filter (λ q, _validate_question q = true) qs ++ later)
    ∧ (∀ qs, ∃ st, parse_lines (qs, Some acc) post = Return st
                   ∧ filter (λ q, _validate_question q = true) (flush_last st) = filter (λ q, _validate_question q = true) qs ++ later).
Proof.
  induction post as [|l post IH]; intros acc Hpost Hacc.
  { exists []. split; intros qs; eexists; (split; [done|]); simpl.
    - by rewrite app_nil_r.
    - by rewrite Hacc, app_nil_r. }
  simpl in Hpost. destruct (is_question_line l) eqn:Hq.
  - destruct (parse_line_question l Hq) as [prompt Hl].
    destruct (parse_lines_emit (Some (fresh_question prompt)) post) as (out & cur2 & Hout).
    exists (filter (λ q, _validate_question q = true) (flush_last (out, cur2))).
    split; intros qs; eexists;
      (split; [by rewrite parse_lines_cons, Hl, bind_return, Hout|]).
    + simpl option_list. by rewrite app_nil_r, flush_last_app, filter_app.
    + simpl option_list. rewrite flush_last_app, !filter_app.
      by rewrite (filter_unexplained acc), app_nil_r.
  - destruct (is_explanation_line l) eqn:He; [done|].
    destruct (parse_line_quiet l Hq He) as (f & Hexp & Hf).
    destruct (IH (f acc) Hpost) as (later & HA & HB); [by rewrite Hexp|].
    exists later. split; intros qs.
    + destruct (HA qs) as (st & Hst & Hfl). exists st. split; [|done].
      by rewrite parse_lines_cons, (proj1 (Hf qs)), bind_return.
    + destruct (HB qs) as (st & Hst & Hfl). exists st. split; [|done].
      by rewrite parse_lines_cons, (proj2 (Hf qs)), bind_return.
Qed.

(** C8, as the code has it: let [L] be an [EXPLANATION:] line of a
    response, the one that completes the well-formed question [q], and
    let no other [EXPLANATION:] line follow [L] before the next line that
    opens a question.  Then the response without [L] parses without
    raising, and to the same questions except [q]: one fewer. *)
Theorem missing_explanation_drops_question (pre : list str) (L : str)
    (post : list str) (q : QuizQuestion) :
  Forall (λ s, lf_free s = true) (pre ++ L :: post) →
  is_explanation_line L = true →
  _parse_quiz_response (unlines (pre ++ [L]))
  = _parse_quiz_response (unlines pre) ++ [q] →
  no_stray_explanation post = true →
  ∃ later,
    _parse_quiz_response (unlines (pre ++ L :: post))
    = _parse_quiz_response (unlines pre) ++ q :: later
    ∧ _parse_quiz_response (unlines (pre ++ post))
      = _parse_quiz_response (unlines pre) ++ later
    ∧ (∃ candidates, parse_candidates (unlines (pre ++ post)) = Return candidates)
    ∧ length (_parse_quiz_response (unlines (pre ++ L :: post)))
      = S (length (_parse_quiz_response (unlines (pre ++ post)))).
Proof.
  intros Hlf HL Hq Hpost.
  apply Forall_app in Hlf as [Hpre [HlfL Hlfpost]%Forall_cons].
  destruct (parse_lines_emit None pre) as (qs & cur & Hrun).
  specialize (Hrun []). rewrite app_nil_l in Hrun.
  assert (unexplained cur) as Hcur.
  { eapply parse_lines_unexplained; [|exact Hrun]. by intros ?. }
  destruct (parse_response_unlines pre _ Hpre Hrun) as [_ Hp].
  rewrite flush_last_unexplained in Hp by done.
  assert (Forall (λ s, lf_free s = true) (pre ++ [L])) as HlfL'.
  { apply Forall_app. split; [done|]. by apply Forall_singleton. }
  assert (Forall (λ s, lf_free s = true) (pre ++ L :: post)) as HlfA.
  { apply Forall_app. split; [done|]. by apply Forall_cons. }
  assert (Forall (λ s, lf_free s = true) (pre ++ post)) as HlfB.
  { by apply Forall_app. }
  destruct cur as [acc|].
  2:{ exfalso.
      assert (parse_lines ([], None) (pre ++ [L]) = Return (qs, None)) as HrunL.
      { by rewrite parse_lines_app, Hrun, bind_return, parse_lines_cons,
          (proj2 (parse_line_explanation L qs HL)). }
      destruct (parse_response_unlines (pre ++ [L]) _ HlfL' HrunL) as [_ HpL].
      simpl in HpL. rewrite HpL, Hp in Hq. by apply list_neq_app_cons in Hq. }
  set (done_q := set_explanation (explanation_of_line L) acc).
  assert (filter (λ q, _validate_question q = true) [done_q] = [q]) as Hdone.
  { assert (parse_lines ([], None) (pre ++ [L]) = Return (qs ++ [done_q], None)) as HrunL.
    { by rewrite parse_lines_app, Hrun, bind_return, parse_lines_cons,
        (proj1 (parse_line_explanation L qs HL)). }
    destruct (parse_response_unlines (pre ++ [L]) _ HlfL' HrunL) as [_ HpL].
    simpl in HpL. rewrite HpL, Hp, filter_app in Hq. by apply app_inv_head in Hq. }
  destruct (tail_agrees post acc Hpost) as (later & HA & HB); [by apply Hcur|].
  destruct (HA (qs ++ [done_q])) as (stA & HstA & HflA).
  destruct (HB qs) as (stB & HstB & HflB).
  assert (parse_lines ([], None) (pre ++ L :: post) = Return stA) as HrunA.
  { by rewrite parse_lines_app, Hrun, bind_return, parse_lines_cons,
      (proj1 (parse_line_explanation L qs HL)), bind_return. }
  assert (parse_lines ([], None) (pre ++ post) = Return stB) as HrunB.
  { by rewrite parse_lines_app, Hrun, bind_return. }
  destruct (parse_response_unlines (pre ++ L :: post) _ HlfA HrunA) as [_ HpA].
  destruct (parse_response_unlines (pre ++ post) _ HlfB HrunB) as [HcB HpB].
  exists later. rewrite HpA, HpB, Hp, HflA, HflB, filter_app, Hdone.
  split; [by rewrite <- app_assoc|]. split; [done|]. split; [by eexists|].
  rewrite !length_app. simpl. lia.
Qed.

(** The parser never raises, whatever the text. *)
Lemma parse_lines_total lines : ∀ st, ∃ st', parse_lines st lines = Return st'.
Proof.
  induction lines as [|l lines IH]; intros st; [by eexists|].
  destruct (parse_line_total st l) as [st1 H1]. destruct (IH st1) as [st2 H2].
  exists st2. by rewrite parse_lines_cons, H1, bind_return.
Qed.

Lemma parse_candidates_total text : ∃ questions, parse_candidates text = Return questions.
Proof.
  unfold parse_candidates.
  destruct (parse_lines_total (PyStr.split_char PyStr.LF (PyStr.strip text)) ([], None))
    as [st ->].
  by eexists.
Qed.

(** * Further properties *)

(** ** The parser *)

(** X1: the parsing loop raises on no text, so the [except] branch of
    [_parse_quiz_response] is never taken: the result is always the
    validated part of the candidates. *)
Theorem parser_never_raises (response_text : str) :
  ∃ candidates,
    parse_candidates response_text = Return candidates
    ∧ _parse_quiz_response response_text
      = filter (λ q, _validate_question q = true) candidates.
Proof.
  destruct (parse_candidates_total response_text) as [candidates H].
  exists candidates. split; [done|]. unfold _parse_quiz_response. by rewrite H.
Qed.

(** X2: [_validate_question] accepts exactly the well-formed questions,
    so the parser drops no well-formed candidate. *)
Theorem validate_iff_well_formed (q : QuizQuestion) :
  _validate_question q = true ↔ well_formed q.
Proof.
  split; [apply validate_well_formed|].
  intros (Hopts & (c & Hc & Hin) & Hq & (e & He & Hne)).
  unfold _validate_question.
  assert (forallb (λ opt, bool_decide (is_Some (options q !! opt))) labels = true) as ->.
  { apply forallb_forall. intros l Hl%list_elem_of_In.
    by apply bool_decide_eq_true, Hopts. }
  rewrite Hc, He, (bool_decide_eq_true_2 _ Hin). simpl.
  destruct (question q); [done|]. by destruct e.
Qed.

Lemma filter_length_app {A} (P : A → Prop) `{∀ x, Decision (P x)} (l1 l2 : list A) :
  length (filter P (l1 ++ l2)) = (length (filter P l1) + length (filter P l2))%nat.
Proof. by rewrite filter_app, length_app. Qed.

(** What the loop adds holds at most one valid question per
    [EXPLANATION:] line. *)
Lemma parse_lines_bound lines : ∀ cur,
  unexplained cur →
  ∃ out cur',
    (∀ qs, parse_lines (qs, cur) lines = Return (qs ++ out, cur'))
    ∧ unexplained cur'
    ∧ (length (filter (λ q, _validate_question q = true) out)
       ≤ explanation_lines lines)%nat.
Proof.
  unfold explanation_lines.
  induction lines as [|l lines IH]; intros cur Hcur.
  { exists [], cur. split; [|split; [done|simpl; lia]].
    intros qs. by rewrite app_nil_r. }
  destruct (is_question_line l) eqn:Hq.
  - destruct (parse_line_question l Hq) as [prompt Hl].
    destruct (IH (Some (fresh_question prompt))) as (out & cur' & Hout & Hcur' & Hlen).
    { by intros q [= <-]. }
    exists (option_list cur ++ out), cur'. split; [|split; [done|]].
    + intros qs. by rewrite parse_lines_cons, Hl, bind_return, Hout, app_assoc.
    + rewrite filter_length_app.
      assert (filter (λ q, _validate_question q = true) (option_list cur) = []) as ->.
      { destruct cur as [acc|]; [|done]. simpl. by apply filter_unexplained, Hcur. }
      destruct (decide (is_explanation_line l = true)).
      * rewrite filter_cons_True by done. cbn [length]. lia.
      * rewrite filter_cons_False by done. cbn [length]. lia.
  - destruct (is_explanation_line l) eqn:He.
    + destruct (IH None) as (out & cur' & Hout & Hcur' & Hlen); [done|].
      rewrite filter_cons_True by done. cbn [length].
      destruct cur as [acc|].
      * exists (set_explanation (explanation_of_line l) acc :: out), cur'.
        split; [|split; [done|]].
        -- intros qs.
           rewrite parse_lines_cons, (proj1 (parse_line_explanation l qs He)),
             bind_return, Hout.
           by rewrite <- app_assoc.
        -- destruct (decide (_validate_question
                               (set_explanation (explanation_of_line l) acc) = true)).
           ++ rewrite filter_cons_True by done. cbn [length]. lia.
           ++ rewrite filter_cons_False by done. lia.
      * exists out, cur'. split; [|split; [done|lia]].
        intros qs.
        by rewrite parse_lines_cons, (proj2 (parse_line_explanation l qs He)),
          bind_return, Hout.
    + destruct (parse_line_quiet l Hq He) as (f & Hexp & Hf).
      rewrite filter_cons_False by (by rewrite He).
      destruct cur as [acc|].
      * destruct (IH (Some (f acc))) as (out & cur' & Hout & Hcur' & Hlen).
        { intros q [= <-]. rewrite Hexp. by apply Hcur. }
        exists out, cur'. split; [|done]. intros qs.
        by rewrite parse_lines_cons, (proj2 (Hf qs)), bind_return, Hout.
      * destruct (IH None) as (out & cur' & Hout & Hcur' & Hlen); [done|].
        exists out, cur'. split; [|done]. intros qs.
        by rewrite parse_lines_cons, (proj1 (Hf qs)), bind_return, Hout.
Qed.

(** X3: the parser returns at most as many questions as the stripped
    text has [EXPLANATION:] lines; a question is produced by its
    explanation line only, never by the end of the text. *)
Theorem questions_need_explanation_lines (response_text : str) :
  (length (_parse_quiz_response response_text)
   ≤ explanation_lines (PyStr.split_char PyStr.LF (PyStr.strip response_text)))%nat.
Proof.
  unfold _parse_quiz_response, parse_candidates.
  destruct (parse_lines_bound
              (PyStr.split_char PyStr.LF (PyStr.strip response_text)) None)
    as (out & cur' & Hout & Hcur' & Hlen); [done|].
  rewrite (Hout []). rewrite app_nil_l, bind_return.
  by rewrite flush_last_unexplained.
Qed.

Lemma parse_lines_preamble junk : ∀ qs,
  Forall (λ l, is_question_line l = false) junk →
  parse_lines (qs, None) junk = Return (qs, None).
Proof.
  induction junk as [|l junk IH]; intros qs Hjunk; [done|].
  apply Forall_cons in Hjunk as [Hl Hjunk]. rewrite parse_lines_cons.
  destruct (is_explanation_line l) eqn:He.
  - rewrite (proj2 (parse_line_explanation l qs He)), bind_return. by apply IH.
  - destruct (parse_line_quiet l Hl He) as (f & _ & Hf).
    rewrite (proj1 (Hf qs)), bind_return. by apply IH.
Qed.

Lemma parse_response_lines lines :
  Forall (λ s, lf_free s = true) lines →
  _parse_quiz_response (unlines lines)
  = match parse_lines ([], None) lines with
    | Return st => filter (λ q, _validate_question q = true) (flush_last st)
    | Raise _ => []
    end.
Proof.
  intros Hlf. destruct (parse_lines_total lines ([], None)) as [st Hst].
  rewrite Hst. by apply parse_response_unlines.
Qed.

(** X4: the lines that come before the first line opening a question
    (a title, a greeting, stray options or explanations) change nothing:
    the response parses as it does without them. *)
Theorem preamble_is_ignored (junk rest : list str) :
  Forall (λ s, lf_free s = true) (junk ++ rest) →
  Forall (λ l, is_question_line l = false) junk →
  _parse_quiz_response (unlines (junk ++ rest)) = _parse_quiz_response (unlines rest).
Proof.
  intros Hlf Hjunk. rewrite !parse_response_lines; [|by apply Forall_app in Hlf as [_ ?]|done].
  by rewrite parse_lines_app, parse_lines_preamble, bind_return.
Qed.

(** *** Stripping twice *)

Lemma rstrip_idem t : PyStr.rstrip (PyStr.rstrip t) = PyStr.rstrip t.
Proof.
  induction t as [|c t IH]; [done|]. simpl.
  destruct (PyStr.rstrip t) as [|d r] eqn:Hr.
  - destruct (PyStr.isspace c) eqn:Hc; [done|]. simpl. by rewrite Hc.
  - change (PyStr.rstrip (Str c (Str d r)))
      with (match PyStr.rstrip (Str d r) with
            | EmptyStr => if PyStr.isspace c then EmptyStr else Str c EmptyStr
            | x => Str c x
            end).
    by rewrite IH.
Qed.

Lemma rstrip_cons_fixed c r :
  PyStr.rstrip (Str c r) = Str c r → r ≠ "" → PyStr.rstrip r = r.
Proof.
  simpl. destruct (PyStr.rstrip r) as [|d x].
  - destruct (PyStr.isspace c); [done|]. intros [= <-]. done.
  - by intros [= <-].
Qed.

Lemma rstrip_lstrip r : PyStr.rstrip r = r → PyStr.rstrip (PyStr.lstrip r) = PyStr.lstrip r.
Proof.
  induction r as [|c r IH]; [done|]. intros Hr.
  change (PyStr.lstrip (Str c r))
    with (if PyStr.isspace c then PyStr.lstrip r else Str c r).
  destruct (PyStr.isspace c) eqn:Hc; [|done].
  destruct r as [|d r]; [done|]. apply IH. by apply (rstrip_cons_fixed c).
Qed.

Lemma lstrip_idem s : PyStr.lstrip (PyStr.lstrip s) = PyStr.lstrip s.
Proof.
  induction s as [|c s IH]; [done|]. simpl.
  destruct (PyStr.isspace c) eqn:Hc; [done|]. simpl. by rewrite Hc.
Qed.

Lemma strip_idem t : PyStr.strip (PyStr.strip t) = PyStr.strip t.
Proof.
  unfold PyStr.strip. rewrite rstrip_lstrip by apply rstrip_idem. apply lstrip_idem.
Qed.

Lemma lf_free_app a b : lf_free (a +:+ b) = lf_free a && lf_free b.
Proof.
  induction a as [|c a IH]; [done|]. rewrite app_cons. simpl.
  by destruct (N.eqb_spec c PyStr.LF).
Qed.

Lemma lf_free_strip t : lf_free t = true → lf_free (PyStr.strip t) = true.
Proof.
  intros Ht. unfold PyStr.strip.
  destruct (rstrip_split t) as (ws & Hs & _).
  destruct (lstrip_split (PyStr.rstrip t)) as (ws' & Hr & _).
  rewrite Hs, Hr, !lf_free_app in Ht.
  by apply andb_true_iff in Ht as [[_ ?]%andb_true_iff _].
Qed.

Lemma parse_lines_stripped lines : ∀ st,
  parse_lines st (filter (λ l, l ≠ "") (PyStr.strip <$> lines)) = parse_lines st lines.
Proof.
  induction lines as [|l lines IH]; intros st; [done|].
  rewrite fmap_cons, parse_lines_cons.
  destruct (decide (PyStr.strip l = "")) as [Hl|Hl].
  - rewrite filter_cons_False by (by intros ?). rewrite IH.
    by rewrite parse_line_blank, bind_return.
  - rewrite filter_cons_True by done.
    rewrite parse_lines_cons, (parse_line_strip st _ l) by apply strip_idem.
    destruct (parse_line st l) as [st'|e]; [|done]. rewrite !bind_return. apply IH.
Qed.

(** X5: only the stripped, non-blank lines of a response matter: blank
    lines, indentation and trailing blanks change nothing in the result. *)
Theorem layout_is_ignored (lines : list str) :
  Forall (λ s, lf_free s = true) lines →
  _parse_quiz_response (unlines (filter (λ l, l ≠ "") (PyStr.strip <$> lines)))
  = _parse_quiz_response (unlines lines).
Proof.
  intros Hlf. rewrite !parse_response_lines; [by rewrite parse_lines_stripped|done|].
  apply Forall_forall. intros l [_ Hl]%list_elem_of_filter.
  apply list_elem_of_fmap in Hl as (l' & -> & Hl').
  apply lf_free_strip. by eapply Forall_forall in Hlf.
Qed.

(** *** Responses in the requested format *)

Lemma strip_fixed t : PyStr.strip t = t → PyStr.rstrip t = t ∧ PyStr.lstrip t = t.
Proof.
  unfold PyStr.strip. intros Ht.
  destruct (rstrip_split t) as (ws & Hs & _).
  destruct (lstrip_split (PyStr.rstrip t)) as (ws' & Hr & _).
  rewrite Ht in Hr.
  assert (ws = "" ∧ ws' = "") as [-> ->].
  { apply (f_equal PyStr.len) in Hs, Hr.
    rewrite length_app_str in Hs, Hr.
    destruct ws, ws'; simpl in *; try done; lia. }
  rewrite app_empty_r in Hs. rewrite app_empty_l in Hr.
  split; [done|]. by rewrite <- Hs in Ht.
Qed.

Lemma rstrip_app u t :
  PyStr.rstrip t ≠ "" → PyStr.rstrip (u +:+ t) = u +:+ PyStr.rstrip t.
Proof.
  intros Ht. induction u as [|c u IH]; [done|].
  rewrite !app_cons. simpl. rewrite IH.
  destruct (u +:+ PyStr.rstrip t) eqn:E; [|done].
  by apply app_eq_empty in E as [_ ?].
Qed.

Lemma strip_app_plain c u t :
  PyStr.isspace c = false → plain t →
  PyStr.strip (Str c u +:+ t) = Str c u +:+ t.
Proof.
  intros Hc (Hne & _ & Ht). destruct (strip_fixed t Ht) as [Hr _].
  unfold PyStr.strip. rewrite rstrip_app by (by rewrite Hr).
  rewrite Hr, app_cons. simpl. by rewrite Hc.
Qed.

Lemma strip_literal_plain c u t :
  PyStr.isspace c = false → plain t →
  PyStr.strip (Str c (u +:+ t)) = Str c (u +:+ t).
Proof. intros Hc Ht. by apply (strip_app_plain c u t). Qed.

Lemma decimal_digit_facts c :
  (48 <=? c)%N && (c <=? 57)%N = true →
  PyStr.isdigit c = true ∧ PyStr.isspace c = false ∧ c ≠ 46%N ∧ c ≠ PyStr.LF.
Proof.
  intros Hc. pose proof Hc as Hr.
  apply andb_true_iff in Hr as [Hlo%N.leb_le Hhi%N.leb_le].
  split_and!.
  - unfold PyStr.isdigit. rewrite Hc. by destruct (N.ltb_spec c 128); [|lia].
  - destruct (PyStr.isspace c) eqn:Hs; [|done]. apply isspace_spec in Hs. lia.
  - lia.
  - unfold PyStr.LF. lia.
Qed.

Lemma split_once_cons sep c s :
  PyStr.split_once sep (Str c s)
  = if PyStr.startswith sep (Str c s)
    then Some ("", PyStr.drop (PyStr.len sep) (Str c s))
    else match PyStr.split_once sep s with
         | Some (a, b) => Some (Str c a, b)
         | None => None
         end.
Proof. reflexivity. Qed.

Lemma startswith_cons_ne a p b s :
  a ≠ b → PyStr.startswith (Str a p) (Str b s) = false.
Proof. intros H. simpl. by destruct (N.eqb_spec a b). Qed.

Lemma split_once_digits n p :
  all_digits n = true → PyStr.split_once ". " (n +:+ ". " +:+ p) = Some (n, p).
Proof.
  induction n as [|c n IH]; intros Hn.
  - rewrite app_empty_l. by destruct p.
  - simpl in Hn. apply andb_true_iff in Hn as [Hc Hn].
    destruct (decimal_digit_facts c Hc) as (_ & _ & Hdot & _).
    rewrite app_cons, split_once_cons, startswith_cons_ne by done.
    by rewrite IH.
Qed.

Lemma lf_free_digits n : all_digits n = true → lf_free n = true.
Proof.
  induction n as [|c n IH]; [done|]. simpl.
  intros [Hc Hn]%andb_true_iff.
  destruct (decimal_digit_facts c Hc) as (_ & _ & _ & Hlf).
  destruct (N.eqb_spec c PyStr.LF); [done|]. by apply IH.
Qed.

Lemma parse_line_option raw c0 rest k v qs cur :
  PyStr.strip raw = Str c0 rest →
  PyStr.isdigit c0 = false →
  PyStr.char_in c0 "ABCD" = true →
  PyStr.split_once ") " (Str c0 rest) = Some (k, v) →
  parse_line (qs, cur) raw = Return (qs, set_option k (PyStr.strip v) <$> cur).
Proof.
  intros Hs Hd Hc Hsplit. unfold parse_line. rewrite Hs, Hd, Hc. cbn [andb].
  unfold PyStr.contains, split_pair. by rewrite Hsplit.
Qed.

Lemma parse_line_correct raw v qs q :
  PyStr.strip raw = "CORRECT:" +:+ v →
  PyStr.contains ") " ("CORRECT:" +:+ v) = false →
  parse_line (qs, Some q) raw = Return (qs, Some (set_correct (PyStr.strip v) q)).
Proof.
  intros Hs Hc. unfold parse_line. rewrite Hs.
  change ("CORRECT:" +:+ v) with (Str 67 ("ORRECT:" +:+ v)) in *.
  change (PyStr.isdigit 67) with false.
  change (PyStr.char_in 67 "ABCD") with true. rewrite Hc. cbn [andb].
  change (PyStr.startswith "CORRECT:" (Str 67 ("ORRECT:" +:+ v))) with true.
  cbv iota. unfold split_snd.
  by change (PyStr.split_once ":" (Str 67 ("ORRECT:" +:+ v)))
    with (Some ("CORRECT", v)).
Qed.

Lemma plain_strip_blank t : plain t → PyStr.strip (Str 32 t) = t.
Proof. intros (_ & _ & Ht). by rewrite strip_cons_space. Qed.

Lemma correct_line_no_paren answer :
  answer ∈ labels → PyStr.contains ") " ("CORRECT:" +:+ Str 32 answer) = false.
Proof.
  intros H. repeat (apply elem_of_cons in H as [->|H]; [by vm_compute|]).
  by apply elem_of_nil in H.
Qed.

(** One rendered item, read line by line, closes one question. *)
Lemma parse_block numbered qs :
  item_ok numbered →
  parse_lines (qs, None) (block_lines numbered)
  = Return (qs ++ [item_question numbered.2], None).
Proof.
  destruct numbered as [n it].
  intros (Hn & Hdig & Hp & Ha & Hb & Hc & Hd & Hans & Hwhy).
  unfold block_lines. cbn [fst snd] in *.
  destruct n as [|d n]; [done|].
  simpl in Hdig. apply andb_true_iff in Hdig as [Hd0 Hdig].
  destruct (decimal_digit_facts d Hd0) as (Hisd & Hsp & _ & _).
  (* the prompt line *)
  rewrite parse_lines_cons.
  assert (opens_question (qs, None) (Str d n +:+ ". " +:+ item_prompt it)
            (item_prompt it)) as Hopen.
  { apply opens_question_iff. exists d, (n +:+ ". " +:+ item_prompt it), (Str d n).
    split; [|split; [done|]].
    - change (Str d n +:+ ". " +:+ item_prompt it)
        with (Str d (n +:+ ". " +:+ item_prompt it)).
      rewrite <- (app_assoc_str n).
      exact (strip_literal_plain d (n +:+ ". ") _ Hsp Hp).
    - rewrite <- app_cons. apply split_once_digits. simpl. by rewrite Hd0. }
  unfold opens_question in Hopen. rewrite Hopen, bind_return. simpl option_list.
  rewrite app_nil_r.
  (* the four option lines *)
  rewrite parse_lines_cons.
  rewrite (parse_line_option _ 65 (") " +:+ item_A it) "A" (item_A it));
    [|exact (strip_literal_plain 65 ") " _ eq_refl Ha)|done|done|done].
  rewrite bind_return, parse_lines_cons.
  rewrite (parse_line_option _ 66 (") " +:+ item_B it) "B" (item_B it));
    [|exact (strip_literal_plain 66 ") " _ eq_refl Hb)|done|done|done].
  rewrite bind_return, parse_lines_cons.
  rewrite (parse_line_option _ 67 (") " +:+ item_C it) "C" (item_C it));
    [|exact (strip_literal_plain 67 ") " _ eq_refl Hc)|done|done|done].
  rewrite bind_return, parse_lines_cons.
  rewrite (parse_line_option _ 68 (") " +:+ item_D it) "D" (item_D it));
    [|exact (strip_literal_plain 68 ") " _ eq_refl Hd)|done|done|done].
  rewrite bind_return, parse_lines_cons. cbn [fmap option_fmap option_map].
  (* the answer *)
  assert (plain (item_answer it)) as Hpa.
  { repeat (apply elem_of_cons in Hans as [->|Hans]; [by vm_compute|]).
    by apply elem_of_nil in Hans. }
  rewrite (parse_line_correct _ (Str 32 (item_answer it)));
    [|exact (strip_literal_plain 67 "ORRECT: " _ eq_refl Hpa)
     |by apply correct_line_no_paren].
  rewrite bind_return, parse_lines_cons, (plain_strip_blank _ Hpa).
  (* the explanation *)
  assert (PyStr.strip ("EXPLANATION: " +:+ item_why it)
          = "EXPLANATION: " +:+ item_why it) as Hse.
  { exact (strip_literal_plain 69 "XPLANATION: " _ eq_refl Hwhy). }
  assert (is_explanation_line ("EXPLANATION: " +:+ item_why it) = true) as He.
  { unfold is_explanation_line. by rewrite Hse. }
  rewrite (proj1 (parse_line_explanation _ qs He)), bind_return.
  unfold explanation_of_line. rewrite Hse.
  change (PyStr.split_once ":" ("EXPLANATION: " +:+ item_why it))
    with (Some ("EXPLANATION", Str 32 (item_why it))).
  cbv beta iota. rewrite (plain_strip_blank _ Hwhy).
  destruct Ha as (_ & _ & ->), Hb as (_ & _ & ->), Hc as (_ & _ & ->),
    Hd as (_ & _ & ->).
  reflexivity.
Qed.

Lemma unlines_cons l l' ls :
  unlines (l :: l' :: ls) = l +:+ newline +:+ unlines (l' :: ls).
Proof. reflexivity. Qed.

Lemma render_quiz_lines items :
  render_quiz items = unlines (concat (block_lines <$> items) ++ [""]).
Proof.
  induction items as [|[n it] items IH]; [done|].
  simpl render_quiz. rewrite IH, fmap_cons.
  change (concat (block_lines (n, it) :: (block_lines <$> items)))
    with (block_lines (n, it) ++ concat (block_lines <$> items)).
  rewrite <- app_assoc.
  assert (∃ l ls, concat (block_lines <$> items) ++ [""] = l :: ls) as (l & ls & ->).
  { destruct (concat (block_lines <$> items)); by eexists _, _. }
  unfold block_lines, render_item, quiz_block. cbn [fst snd app].
  by rewrite !unlines_cons, !app_assoc_str.
Qed.

Lemma block_lines_lf_free numbered :
  item_ok numbered → Forall (λ s, lf_free s = true) (block_lines numbered).
Proof.
  destruct numbered as [n it].
  intros (Hn & Hdig & Hp & Ha & Hb & Hc & Hd & Hans & Hwhy). cbn [fst snd] in *.
  assert (lf_free (item_answer it) = true) as Hla.
  { repeat (apply elem_of_cons in Hans as [->|Hans]; [done|]).
    by apply elem_of_nil in Hans. }
  destruct Hp as (_ & Hp & _), Ha as (_ & Ha & _), Hb as (_ & Hb & _),
    Hc as (_ & Hc & _), Hd as (_ & Hd & _), Hwhy as (_ & Hwhy & _).
  unfold block_lines. cbn [fst snd].
  pose proof (lf_free_digits n Hdig) as Hln.
  repeat (apply Forall_cons; split); [..|by apply Forall_nil];
    rewrite !lf_free_app, ?Hln, ?Hp, ?Ha, ?Hb, ?Hc, ?Hd, ?Hla, ?Hwhy; reflexivity.
Qed.

Lemma parse_blocks items : ∀ qs,
  Forall item_ok items →
  parse_lines (qs, None) (concat (block_lines <$> items))
  = Return (qs ++ (item_question ∘ snd <$> items), None).
Proof.
  induction items as [|it items IH]; intros qs Hok.
  { by rewrite app_nil_r. }
  apply Forall_cons in Hok as [Hit Hok].
  rewrite fmap_cons.
  change (concat (block_lines it :: (block_lines <$> items)))
    with (block_lines it ++ concat (block_lines <$> items)).
  rewrite parse_lines_app, parse_block, bind_return, IH by done.
  by rewrite <- app_assoc.
Qed.

Lemma item_question_valid numbered :
  item_ok numbered → _validate_question (item_question numbered.2) = true.
Proof.
  intros (_ & _ & (Hp & _) & _ & _ & _ & _ & Hans & (Hwhy & _)).
  unfold _validate_question. simpl.
  rewrite (bool_decide_eq_true_2 _ Hans). simpl.
  destruct (item_prompt numbered.2); [done|]. by destruct (item_why numbered.2).
Qed.

(** X6: a response written in the format that the quiz prompt asks for
    is read back as it was written: for items whose number is made of
    the decimal digits 0 to 9, whose texts are one line each, not empty
    and without white space at either end, and whose answer is A, B, C
    or D, the parser returns the items, in order, with their four
    options. *)
Theorem formatted_quiz_round_trip (items : list (str * quiz_item)) :
  Forall item_ok items →
  _parse_quiz_response (render_quiz items) = item_question ∘ snd <$> items.
Proof.
  intros Hok. rewrite render_quiz_lines, parse_response_lines.
  - rewrite parse_lines_app, parse_blocks, bind_return by done.
    rewrite app_nil_l. simpl.
    induction Hok as [|it items Hit Hok IH]; [done|].
    rewrite fmap_cons, filter_cons_True; [by rewrite IH|].
    by apply item_question_valid.
  - apply Forall_app. split; [|by repeat constructor].
    induction Hok as [|it items Hit Hok IH]; [done|].
    rewrite fmap_cons.
    change (concat (block_lines it :: (block_lines <$> items)))
      with (block_lines it ++ concat (block_lines <$> items)).
    apply Forall_app. split; [|done].
    by apply block_lines_lf_free.
Qed.

(** ** The quiz session *)

(** One [submit_answer] call on an object that satisfies the session
    invariant. *)
Lemma submit_answer_step self answer :
  session_invariant self →
  ∃ self' ok feedback,
    submit_answer self answer = Return (self', (ok, feedback))
    ∧ session_invariant self'
    ∧ quiz_score self' = quiz_score self + (if ok then 1 else 0)
    ∧ quiz_progress self ≤ quiz_progress self' ≤ quiz_progress self + 1
    ∧ feedback ≠ "No current question"
    ∧ self' = set_quiz (quiz_active self') (current_quiz self) (quiz_progress self')
                (quiz_score self') (total_questions self) self.
Proof.
  intros Hinv. destruct (quiz_active self) eqn:Ha.
  - destruct (current_question_of_active self Hinv Ha) as [q Hq].
    destruct (submit_answer_invariant self answer Hinv) as (self' & r & Hsub & Hinv' & _).
    destruct (decide (PyStr.upper answer ∈ labels)) as [Hin|Hnot].
    + rewrite (submit_answer_valid self answer q Ha Hq Hin) in Hsub.
      injection Hsub as <- <-. eexists _, _, _.
      rewrite (submit_answer_valid self answer q Ha Hq Hin).
      split; [done|]. split; [done|]. cbn [quiz_score quiz_progress set_quiz].
      split; [destruct (bool_decide _); lia|]. split; [lia|]. split; [|done].
      destruct (bool_decide _); intros H; by vm_compute in H.
    + rewrite (submit_answer_invalid self answer q Ha Hq Hnot).
      exists self, false, "Invalid answer option".
      split; [done|]. split; [done|]. split; [lia|]. split; [lia|]. split; [done|].
      by destruct self.
  - unfold submit_answer. rewrite Ha. simpl.
    exists self, false, "No quiz is active".
    split; [done|]. split; [done|]. split; [lia|]. split; [lia|]. split; [done|].
    by destruct self.
Qed.

Lemma submit_all_cons self a rest :
  submit_all self (a :: rest)
  = r ← submit_answer self a; r' ← submit_all r.1 rest; Return (r'.1, r.2.1 :: r'.2).
Proof. reflexivity. Qed.

Lemma count_true_cons b l : count_true (b :: l) = (if b then 1 else 0) + count_true l.
Proof.
  unfold count_true. destruct b.
  - rewrite filter_cons_True by done. cbn [length]. lia.
  - rewrite filter_cons_False by done. lia.
Qed.

Lemma submit_all_accounting answers : ∀ self,
  session_invariant self →
  ∃ self' outcomes,
    submit_all self answers = Return (self', outcomes)
    ∧ session_invariant self'
    ∧ length outcomes = length answers
    ∧ quiz_score self' = quiz_score self + count_true outcomes
    ∧ quiz_progress self ≤ quiz_progress self'
      ≤ quiz_progress self + Z.of_nat (length answers).
Proof.
  induction answers as [|a answers IH]; intros self Hinv.
  { exists self, []. split; [done|]. split; [done|]. split; [done|].
    unfold count_true. simpl. lia. }
  destruct (submit_answer_step self a Hinv)
    as (self1 & ok & fb & Hsub & Hinv1 & Hscore & Hprog & _).
  destruct (IH self1 Hinv1) as (self2 & outcomes & Hall & Hinv2 & Hlen & Hscore2 & Hprog2).
  exists self2, (ok :: outcomes).
  rewrite submit_all_cons, Hsub, bind_return. cbn [fst snd]. rewrite Hall, bind_return.
  split; [done|]. split; [done|]. split; [by cbn [length]; rewrite Hlen|].
  rewrite count_true_cons. cbn [length]. lia.
Qed.

(** ** Every reachable object *)

Lemma turns_app a b : turns (a ++ b) = turns a ++ turns b.
Proof. induction a as [|[q r] a IH]; [done|]. simpl. by rewrite IH. Qed.

(** The invariant looks at five attributes only. *)
Lemma object_invariant_ext self self' :
  model self' = model self →
  _answer_history self' = _answer_history self →
  quiz_active self' = quiz_active self →
  current_quiz self' = current_quiz self →
  quiz_progress self' = quiz_progress self →
  quiz_score self' = quiz_score self →
  total_questions self' = total_questions self →
  chat_history self' = chat_history self →
  object_invariant self → object_invariant self'.
Proof.
  unfold object_invariant, session_invariant.
  intros -> -> -> -> -> -> -> ->. done.
Qed.

Lemma load_document_frame fs self file_path :
  ∃ e, (load_document fs self file_path).1
       = set_last_error e (set_document_name (Some (basename file_path)) self).
Proof.
  unfold load_document. destruct (load_content fs file_path) as [content|e].
  - exists (last_error self). by destruct self.
  - by exists (Some e).
Qed.

Lemma handle_file_upload_frame fs tmp self uploaded_file :
  ∃ e d ctx, (handle_file_upload fs tmp self uploaded_file).1
             = set_last_error e (set_document_name d (set_context ctx self)).
Proof.
  assert (∃ e d ctx,
            self = set_last_error e (set_document_name d (set_context ctx self)))
    as Hsame.
  { exists (last_error self), (document_name self), (context self). by destruct self. }
  unfold handle_file_upload. destruct uploaded_file as [uploaded_file|]; [|done].
  destruct (UploadedFile.size uploaded_file =? 0); [done|].
  destruct (mkdtemp tmp) as [temp_dir|]; [|done].
  destruct (save tmp _) as [?|]; [|done].
  set (path := path_join temp_dir (UploadedFile.name uploaded_file)).
  destruct (load_document_frame fs self path) as [e He].
  destruct (load_document fs self path) as [self1 loaded]. simpl in He. subst self1.
  assert (∃ e' d ctx,
            set_last_error e (set_document_name (Some (basename path)) self)
            = set_last_error e' (set_document_name d (set_context ctx self)))
    as Hloaded.
  { exists e, (Some (basename path)), (context self). by destruct self. }
  destruct loaded as [content|]; [|done].
  destruct (remove tmp path temp_dir) as [?|]; [|done].
  destruct (PyStr.truthy content); simpl; [|done].
  exists e, (Some (basename path)), content. by destruct self.
Qed.

Lemma ask_question_frame complete self question :
  ∃ a h e,
    after (ask_question complete self question)
    = set_last_error e (set_conversation a h (context self) (document_name self) self)
    ∧ (h = chat_history self
       ∨ ∃ response,
           answer_text (ask_question complete self question) = Return response
           ∧ h = chat_history self
                 ++ [user_message question; assistant_message response]
           ∧ PyStr.strip question ≠ ""
           ∧ PyStr.strip response ≠ "").
Proof.
  unfold ask_question.
  destruct (PyStr.truthy (PyStr.strip question)) eqn:Hq; simpl.
  2:{ exists (conversation_active self), (chat_history self), (last_error self).
      split; [by destruct self|by left]. }
  destruct (_should_end_conversation question).
  { exists false, (chat_history self), (last_error self). split; [by destruct self|by left]. }
  destruct (_generate_response complete _) as [response|e]; simpl.
  - unfold _update_chat_history. rewrite Hq. simpl.
    destruct (PyStr.truthy (PyStr.strip response)) eqn:Hr.
    + exists (conversation_active self),
        (chat_history self ++ [user_message question; assistant_message response]),
        (last_error self).
      split; [by destruct self|]. right. exists response. split; [done|]. split; [done|].
      split; [by destruct (PyStr.strip question)|by destruct (PyStr.strip response)].
    + exists (conversation_active self), (chat_history self), (last_error self).
      split; [by destruct self|by left].
  - exists (conversation_active self), (chat_history self), (Some e).
    split; [by destruct self|by left].
Qed.

Lemma object_invariant_init : object_invariant init.
Proof.
  split; [done|]. split; [done|]. split.
  { unfold session_invariant. simpl. split; [lia|]. split; [lia|]. split; [done|].
    split; [done|lia]. }
  split; [by constructor|]. by exists [].
Qed.

Lemma object_invariant_quiz self a qs p sc t :
  object_invariant self →
  session_invariant (set_quiz a qs p sc t self) →
  Forall well_formed qs →
  object_invariant (set_quiz a qs p sc t self).
Proof. intros (Hm & Hh & _ & _ & Hchat) Hinv Hwf. by split_and!. Qed.

Lemma run_astra_invariant self c self' :
  object_invariant self → run_astra self c = Return self' → object_invariant self'.
Proof.
  intros Hinv. destruct c as [fs p|fs tmp up|complete q| |n reply|c]; simpl.
  - intros [= <-]. destruct (load_document_frame fs self p) as [e ->].
    by apply (object_invariant_ext self).
  - intros [= <-]. destruct (handle_file_upload_frame fs tmp self up) as (e & d & ctx & ->).
    by apply (object_invariant_ext self).
  - intros [= <-]. destruct (ask_question_frame complete self q) as (a & h & e & -> & Hh).
    destruct Hinv as (Hm & Hhist & Hs & Hwf & (ex & Hchat & Hex)).
    split; [done|]. split; [done|]. split; [done|]. split; [done|].
    destruct Hh as [->|(response & _ & -> & Hq & Hr)]; [by exists ex|].
    exists (ex ++ [(q, response)]).
    simpl. rewrite turns_app, Hchat. split; [done|].
    apply Forall_app. split; [done|]. by apply Forall_singleton.
  - intros [= <-]. destruct Hinv as (Hm & Hhist & _).
    split; [done|]. split; [done|]. split.
    { unfold session_invariant. simpl. split; [lia|]. split; [lia|]. split; [done|].
      split; [done|lia]. }
    split; [by constructor|]. by exists [].
  - intros [= <-]. unfold generate_quiz.
    destruct (PyStr.truthy (context self)); simpl;
      [|by apply (object_invariant_ext self)].
    destruct reply as [text|e]; [|by apply (object_invariant_ext self)].
    destruct (_parse_quiz_response text) as [|q0 qs] eqn:Hparse;
      [by apply (object_invariant_ext self)|].
    apply object_invariant_quiz; [done| |].
    + unfold session_invariant. simpl. split; [lia|]. split; [lia|]. split; [done|].
      split; [lia|done].
    + rewrite <- Hparse. unfold _parse_quiz_response.
      destruct (parse_candidates text); [|by constructor].
      apply Forall_forall. intros x [Hx _]%list_elem_of_filter.
      by apply validate_well_formed.
  - destruct c as [answer| | |]; simpl.
    + destruct Hinv as (Hm & Hhist & Hs & Hwf & Hchat).
      destruct (submit_answer_step self answer Hs)
        as (self1 & ok & fb & -> & Hinv1 & _ & _ & _ & Hframe).
      rewrite bind_return. intros [= <-]. cbn [fst].
      rewrite Hframe. apply object_invariant_quiz; [done| |done].
      by rewrite <- Hframe.
    + by intros [= <-].
    + destruct (get_current_question self); [|done]. by intros [= <-].
    + intros [= <-]. destruct Hinv as (Hm & Hhist & _ & _ & Hchat).
      split; [done|]. split; [done|]. split.
      { unfold session_invariant. simpl. split; [lia|]. split; [lia|]. split; [done|].
        split; [done|lia]. }
      split; [by constructor|done].
Qed.

Lemma astra_reachable_invariant self : astra_reachable self → object_invariant self.
Proof.
  induction 1 as [|self c self' _ IH Hrun]; [apply object_invariant_init|].
  by eapply run_astra_invariant.
Qed.

(** The example session is reachable. *)
Lemma example_session_reachable : astra_reachable example_session.
Proof.
  apply (reach_astra (set_context "Two and two make four."
                        (set_document_name (Some "sums.txt") init))
           (DoGenerateQuiz 1 (Return example_text))); [|reflexivity].
  apply (reach_astra init (DoUpload sample_files sample_temp (Some sample_upload)));
    [apply reach_init|].
  by vm_compute.
Qed.

(** X7: on every reachable object a run of [submit_answer] calls
    returns, with one result per answer, and the score grows by the
    number of answers reported correct; the progress grows by the
    number of answers at most. *)
Theorem score_counts_correct_answers (self : AstraAI) (answers : list str) :
  astra_reachable self →
  ∃ self' outcomes,
    submit_all self answers = Return (self', outcomes)
    ∧ length outcomes = length answers
    ∧ quiz_score self' = quiz_score self + count_true outcomes
    ∧ quiz_progress self ≤ quiz_progress self'
      ≤ quiz_progress self + Z.of_nat (length answers).
Proof.
  intros (_ & _ & Hinv & _)%astra_reachable_invariant.
  destruct (submit_all_accounting answers self Hinv)
    as (self' & outcomes & H & _ & Hlen & Hscore & Hprog).
  by exists self', outcomes.
Qed.

Lemma perfect_run answers : ∀ self,
  session_invariant self →
  Forall well_formed (current_quiz self) →
  Forall2 (λ a q, Some (PyStr.upper a) = correct q) answers
    (drop (Z.to_nat (quiz_progress self)) (current_quiz self)) →
  ∃ self',
    submit_all self answers = Return (self', replicate (length answers) true)
    ∧ quiz_score self' = quiz_score self + Z.of_nat (length answers)
    ∧ quiz_progress self' = total_questions self'
    ∧ total_questions self' = total_questions self
    ∧ quiz_active self' = false.
Proof.
  induction answers as [|a answers IH]; intros self Hinv Hwf Hall.
  - apply Forall2_nil_inv_l in Hall.
    destruct Hinv as (Hp & Hs & Hlen & Hact).
    assert (quiz_progress self = total_questions self) as Heq.
    { apply (f_equal length) in Hall. rewrite length_drop in Hall. simpl in Hall. lia. }
    exists self. split; [done|]. split; [simpl; lia|]. split; [done|]. split; [done|].
    destruct (quiz_active self); [|done]. assert (quiz_progress self < total_questions self) by tauto. lia.
  - apply Forall2_cons_inv_l in Hall as (q & rest & Hq & Hall & Hdrop).
    assert (current_quiz self !! Z.to_nat (quiz_progress self) = Some q) as Hlook.
    { pose proof (lookup_drop (current_quiz self) (Z.to_nat (quiz_progress self)) 0) as H.
      rewrite Hdrop, Nat.add_0_r in H. by rewrite <- H. }
    pose proof Hinv as (Hp & Hs & Hlen & Hact).
    assert (quiz_progress self < total_questions self) as Hlt.
    { apply lookup_lt_Some in Hlook. lia. }
    assert (quiz_active self = true) as Ha by tauto.
    destruct (current_question_of_active self Hinv Ha) as [q' Hcur].
    assert (q' = q) as ->.
    { unfold get_current_question in Hcur. rewrite Ha in Hcur. simpl in Hcur.
      destruct (Z.leb_spec (Z.of_nat (length (current_quiz self))) (quiz_progress self));
        [lia|].
      destruct (index_list_lookup (current_quiz self) (quiz_progress self))
        as (x & Hx & Hx'); [lia|].
      rewrite Hx in Hcur. rewrite bind_return in Hcur. congruence. }
    assert (well_formed q) as (_ & (c & Hc & Hin) & _).
    { eapply Forall_forall; [exact Hwf|]. by eapply list_elem_of_lookup_2. }
    assert (PyStr.upper a ∈ labels) as Hvalid by congruence.
    destruct (submit_answer_invariant self a Hinv) as (self1 & r & Hsub & Hinv1 & _).
    rewrite (submit_answer_valid self a q Ha Hcur Hvalid) in Hsub.
    rewrite (bool_decide_eq_true_2 _ Hq) in Hsub.
    injection Hsub as <- <-.
    destruct (IH _ Hinv1) as (self2 & Hall2 & Hscore & Hprog & Htot & Hoff).
    { done. }
    { cbn [quiz_progress current_quiz set_quiz].
      replace (Z.to_nat (quiz_progress self + 1))
        with (Z.to_nat (quiz_progress self) + 1)%nat by lia.
      by rewrite <- drop_drop, Hdrop. }
    exists self2.
    rewrite submit_all_cons, (submit_answer_valid self a q Ha Hcur Hvalid), bind_return.
    rewrite (bool_decide_eq_true_2 _ Hq). cbn [fst snd]. rewrite Hall2, bind_return.
    cbn [quiz_score set_quiz total_questions] in *.
    split; [done|]. split; [cbn [length]; lia|]. done.
Qed.

(** X8: answering every question of a freshly generated quiz with its
    correct label, in upper or lower case, reports every answer as
    correct, brings the score to the number of questions and completes
    the session. *)
Theorem all_correct_scores_full (self0 self : AstraAI) (n : Z) (reply : outcome str)
    (answers : list str) :
  generate_quiz self0 n reply = (self, Return true) →
  Forall2 (λ a q, Some (PyStr.upper a) = correct q) answers (current_quiz self) →
  ∃ self',
    submit_all self answers = Return (self', replicate (length answers) true)
    ∧ quiz_score self' = total_questions self'
    ∧ quiz_progress self' = total_questions self'
    ∧ total_questions self' = Z.of_nat (length (current_quiz self))
    ∧ quiz_active self' = false.
Proof.
  intros Hgen Hall.
  pose proof (generate_quiz_invariant _ _ _ _ Hgen) as Hinv.
  assert (quiz_progress self = 0 ∧ quiz_score self = 0
          ∧ Forall well_formed (current_quiz self)) as (Hp & Hs & Hwf).
  { revert Hgen. unfold generate_quiz.
    destruct (PyStr.truthy (context self0)); simpl; [|done].
    destruct reply as [text|e].
    2:{ intros [= _ Hp]. by destruct (print_red _). }
    destruct (_parse_quiz_response text) as [|q0 qs] eqn:Hparse; [done|].
    intros [= <-]. split; [done|]. split; [done|]. simpl.
    rewrite <- Hparse. unfold _parse_quiz_response.
    destruct (parse_candidates text); [|by constructor].
    apply Forall_forall. intros x [Hx _]%list_elem_of_filter.
    by apply validate_well_formed. }
  destruct (perfect_run answers self Hinv Hwf) as (self' & H & Hscore & Hprog & Htot & Hoff).
  { by rewrite Hp. }
  exists self'. split; [done|].
  pose proof (Forall2_length _ _ _ Hall) as Hlen.
  destruct Hinv as (_ & _ & Hlen' & _). split_and!; try done; lia.
Qed.

(** X9: on a reachable object [submit_answer] never raises and never
    answers "No current question": an active session always has a
    current question, so that branch is dead. *)
Theorem submit_answer_always_answers (self : AstraAI) (answer : str) :
  astra_reachable self →
  ∃ self' ok feedback,
    submit_answer self answer = Return (self', (ok, feedback))
    ∧ feedback ≠ "No current question".
Proof.
  intros (_ & _ & Hinv & _)%astra_reachable_invariant.
  destruct (submit_answer_step self answer Hinv)
    as (self' & ok & fb & H & _ & _ & _ & Hfb & _).
  by exists self', ok, fb.
Qed.

(** X10: on a reachable object [get_current_question] does not raise; it
    returns a question exactly when the quiz is active, and that
    question is the stored question at index [quiz_progress], which is
    well-formed. *)
Theorem current_question_is_next (self : AstraAI) :
  astra_reachable self →
  (quiz_active self = true →
   ∃ q, get_current_question self = Return (Some q)
        ∧ current_quiz self !! Z.to_nat (quiz_progress self) = Some q
        ∧ well_formed q)
  ∧ (quiz_active self = false → get_current_question self = Return None).
Proof.
  intros (_ & _ & Hinv & Hwf & _)%astra_reachable_invariant.
  split; [|apply current_question_of_inactive].
  intros Ha. pose proof Hinv as (Hp & Hs & Hlen & Hact).
  assert (quiz_progress self < total_questions self) as Hlt by tauto.
  destruct (index_list_lookup (current_quiz self) (quiz_progress self))
    as (q & Hq & Hlook); [lia|].
  exists q. split; [|split; [done|]].
  - unfold get_current_question. rewrite Ha. simpl.
    destruct (Z.leb_spec (Z.of_nat (length (current_quiz self))) (quiz_progress self));
      [lia|].
    by rewrite Hq.
  - eapply Forall_forall; [exact Hwf|]. by eapply list_elem_of_lookup_2.
Qed.

(** X11: on a reachable object the status is consistent: the remaining
    count is the total minus the progress, it is not negative, and the
    score is at most the progress, which is at most the total. *)
Theorem status_is_consistent (self : AstraAI) :
  astra_reachable self →
  Status.remaining (get_quiz_status self)
  = Status.total_questions (get_quiz_status self) - Status.progress (get_quiz_status self)
  ∧ 0 ≤ Status.remaining (get_quiz_status self)
  ∧ 0 ≤ Status.score (get_quiz_status self) ≤ Status.progress (get_quiz_status self)
  ∧ Status.progress (get_quiz_status self) ≤ Status.total_questions (get_quiz_status self)
  ∧ (Status.active (get_quiz_status self) = true
     ↔ 0 < Status.remaining (get_quiz_status self)).
Proof.
  intros (_ & _ & (Hp & Hs & Hlen & Hact) & _)%astra_reachable_invariant.
  simpl. destruct (quiz_active self).
  - assert (quiz_progress self < total_questions self) by tauto.
    split; [done|]. split; [lia|]. split; [lia|]. split; [lia|]. split; [lia|done].
  - assert (¬ quiz_progress self < total_questions self) by (intros ?; by apply Hact in H).
    split; [lia|]. split; [lia|]. split; [lia|]. split; [lia|]. split; [done|lia].
Qed.

(** X12: no call creates the attribute [_answer_history], so on every
    reachable object [get_quiz_status] reports a [current_streak] of 0,
    whatever was answered. *)
Theorem streak_is_always_zero (self : AstraAI) :
  astra_reachable self →
  _answer_history self = None
  ∧ Status.current_streak (get_quiz_status self) = 0.
Proof.
  intros (_ & Hh & _)%astra_reachable_invariant.
  split; [done|]. by apply streak_without_history.
Qed.

(** ** The conversation *)

(** X13: on every reachable object the history is a list of exchanges,
    each a user turn followed by the assistant turn that answered it,
    and neither text of an exchange is blank. *)
Theorem history_is_made_of_exchanges (self : AstraAI) :
  astra_reachable self →
  ∃ exchanges,
    chat_history self = turns exchanges
    ∧ Forall (λ e, PyStr.strip e.1 ≠ "" ∧ PyStr.strip e.2 ≠ "") exchanges.
Proof. by intros (_ & _ & _ & _ & H)%astra_reachable_invariant. Qed.

(** X14: [reset_conversation] brings any reachable object back to the
    state of a new [AstraAI()]. *)
Theorem reset_restores_initial_state (self : AstraAI) :
  astra_reachable self → reset_conversation self = init.
Proof.
  intros (Hm & Hh & _)%astra_reachable_invariant.
  destruct self. simpl in *. subst. reflexivity.
Qed.

(** X15: once two exchanges are stored, the three recent turns sent to
    the model are the answer of the exchange before the last and the
    whole last exchange; the question of the exchange before the last
    is not sent. *)
Theorem recent_turns_cut_an_exchange (self : AstraAI) (question : str)
    (older : list (str * str)) (q1 r1 q2 r2 : str) :
  chat_history self = turns (older ++ [(q1, r1); (q2, r2)]) →
  ∃ rest,
    _prepare_messages self question
    = system_message :: assistant_message r1 :: user_message q2
      :: assistant_message r2 :: rest.
Proof.
  intros Hh. unfold _prepare_messages. cbv zeta. rewrite Hh, turns_app.
  assert (last_n 3 (turns older ++ turns [(q1, r1); (q2, r2)])
          = [assistant_message r1; user_message q2; assistant_message r2]) as ->.
  { unfold last_n. rewrite length_app. simpl length.
    replace (length (turns older) + 4 - 3)%nat with (length (turns older) + 1)%nat by lia.
    by rewrite drop_app_add. }
  destruct (_ && _); by eexists.
Qed.




(** X17: when the model call returns a completion for a question that
    is not blank and holds no end phrase, [ask_question] returns that
    completion; it appends the question and the completion to the
    history as a user turn and an assistant turn unless the completion
    is blank, and changes nothing else. *)
Theorem answer_is_returned_and_stored (complete : list message → outcome str)
    (self : AstraAI) (question response : str) :
  PyStr.strip question ≠ "" →
  ¬ says_end_phrase question →
  complete (_prepare_messages self question) = Return response →
  answer_text (ask_question complete self question) = Return response
  ∧ after (ask_question complete self question)
    = (if bool_decide (PyStr.strip response = "") then self
       else set_chat_history
              (chat_history self
               ++ [user_message question; assistant_message response]) self).
Proof.
  intros Hq Hend Hr. unfold ask_question.
  destruct (PyStr.strip question) eqn:Hs; [done|]. simpl.
  destruct (_should_end_conversation question) eqn:He.
  { by apply should_end_spec in He. }
  unfold _generate_response. rewrite Hr. simpl. split; [done|].
  unfold _update_chat_history. rewrite Hs. simpl.
  by destruct (PyStr.strip response).
Qed.

(** X18: [ask_question] never reads [conversation_active] nor the quiz
    attributes: a question put after the conversation has ended, or
    during a quiz, gets the answer and sends the messages it would get
    and send otherwise. *)
Theorem ask_question_ignores_flags (complete : list message → outcome str)
    (self : AstraAI) (question : str) (a b : bool) (qs : list QuizQuestion)
    (p sc t : Z) :
  answer_text (ask_question complete
                 (set_conversation_active a (set_quiz b qs p sc t self)) question)
  = answer_text (ask_question complete self question)
  ∧ model_calls (ask_question complete
                   (set_conversation_active a (set_quiz b qs p sc t self)) question)
    = model_calls (ask_question complete self question).
Proof.
  unfold ask_question.
  destruct (PyStr.truthy (PyStr.strip question)); simpl; [|done].
  destruct (_should_end_conversation question); [done|].
  change (_prepare_messages (set_conversation_active a (set_quiz b qs p sc t self)) question)
    with (_prepare_messages self question).
  by destruct (_generate_response complete _).
Qed.

(** ** Documents *)

Lemma truthy_strip_nonempty content :
  PyStr.truthy (PyStr.strip content) = true → content ≠ "" ∧ PyStr.strip content ≠ "".
Proof. intros H. split; intros E; by rewrite E in H. Qed.

Lemma load_content_success fs file_path content :
  load_content fs file_path = Return content →
  PyStr.strip content ≠ "" ∧ content ≠ ""
  ∧ PyStr.lower (splitext_ext file_path) ∈ supported_extensions.
Proof.
  unfold load_content. cbv zeta.
  set (ext := PyStr.lower (splitext_ext file_path)).
  assert (∀ r : outcome str,
            (c ← r; if negb (PyStr.truthy (PyStr.strip c))
                    then Raise "Document appears to be empty" else Return c)
            = Return content →
            PyStr.strip content ≠ "" ∧ content ≠ "") as Hvalid.
  { intros [c|e]; [|done]. rewrite bind_return.
    destruct (PyStr.truthy (PyStr.strip c)) eqn:Hc; [|done].
    intros [= <-]. by apply truthy_strip_nonempty in Hc as [? ?]. }
  unfold supported_extensions.
  destruct (bool_decide (ext = ".txt")) eqn:E1.
  { apply bool_decide_eq_true in E1 as ->. intros [? ?]%Hvalid.
    split; [done|]. split; [done|]. apply list_elem_of_here. }
  destruct (bool_decide (ext = ".pdf")) eqn:E2.
  { apply bool_decide_eq_true in E2 as ->. intros [? ?]%Hvalid.
    split; [done|]. split; [done|]. apply list_elem_of_further, list_elem_of_here. }
  destruct (bool_decide (ext = ".docx")) eqn:E3; [|done].
  apply bool_decide_eq_true in E3 as ->. intros [? ?]%Hvalid.
  split; [done|]. split; [done|].
  apply list_elem_of_further, list_elem_of_further, list_elem_of_here.
Qed.


Lemma read_txt_loop_result fs file_path encodings :
  match read_txt_loop fs file_path encodings with
  | Return text =>
      ∃ before enc after,
        encodings = before ++ enc :: after
        ∧ Forall (λ e, read_text fs file_path e = UnicodeDecodeError) before
        ∧ read_text fs file_path enc = TextOk text
  | Raise msg =>
      (Forall (λ e, read_text fs file_path e = UnicodeDecodeError) encodings
       ∧ msg = "Unable to decode file with supported encodings")
      ∨ ∃ before enc after,
          encodings = before ++ enc :: after
          ∧ Forall (λ e, read_text fs file_path e = UnicodeDecodeError) before
          ∧ read_text fs file_path enc = OtherError msg
  end.
Proof.
  induction encodings as [|enc encodings IH]; simpl; [by left|].
  destruct (read_text fs file_path enc) eqn:Henc.
  - by exists [], enc, encodings.
  - destruct (read_txt_loop fs file_path encodings) as [text|msg].
    + destruct IH as (before & enc' & after & -> & Hbefore & Hread).
      exists (enc :: before), enc', after. split; [done|]. split; [|done].
      by apply Forall_cons.
    + destruct IH as [[Hall ->]|(before & enc' & after & -> & Hbefore & Hread)].
      * left. split; [|done]. by apply Forall_cons.
      * right. exists (enc :: before), enc', after. split; [done|]. split; [|done].
        by apply Forall_cons.
  - right. by exists [], enc, encodings.
Qed.

(** X20: [_read_txt] returns the text read under the first of utf-8,
    latin-1 and cp1252 that does not fail to decode; an error of another
    kind stops the search at once and is passed on, and when the three
    encodings fail to decode it raises its own message. *)
Theorem read_txt_takes_first_decodable (fs : FileSystem) (file_path : str) :
  match _read_txt fs file_path with
  | Return text =>
      ∃ before enc after,
        text_encodings = before ++ enc :: after
        ∧ Forall (λ e, read_text fs file_path e = UnicodeDecodeError) before
        ∧ read_text fs file_path enc = TextOk text
  | Raise msg =>
      (Forall (λ e, read_text fs file_path e = UnicodeDecodeError) text_encodings
       ∧ msg = "Unable to decode file with supported encodings")
      ∨ ∃ before enc after,
          text_encodings = before ++ enc :: after
          ∧ Forall (λ e, read_text fs file_path e = UnicodeDecodeError) before
          ∧ read_text fs file_path enc = OtherError msg
  end.
Proof. apply read_txt_loop_result. Qed.

(** With a file that utf-8 does not decode, the text is the latin-1 one. *)
Example read_txt_falls_back : _read_txt scanned_files "/docs/menu.txt" = Return "cafe".
Proof. reflexivity. Qed.





Lemma prepare_messages_document self question name :
  document_name self = Some name → name ≠ "" → context self ≠ "" →
  document_message name (context self) ∈ _prepare_messages self question.
Proof.
  intros Hname Hne Hctx. unfold _prepare_messages. cbv zeta. rewrite Hname.
  destruct (context self) as [|c0 ctx] eqn:Hc; [done|].
  destruct name as [|b0 base]; [done|].
  change (PyStr.truthy (Str c0 ctx)) with true. cbv iota.
  rewrite take_truthy. cbn [truthy_opt PyStr.truthy andb].
  apply elem_of_app. left. apply elem_of_app. right.
  by apply list_elem_of_singleton.
Qed.

Lemma load_document_content fs self file_path content :
  (load_document fs self file_path).2 = Return content → content ≠ "" →
  PyStr.strip content ≠ "".
Proof.
  unfold load_document.
  destruct (load_content fs file_path) as [content'|e] eqn:Hload; simpl.
  - intros [= <-] _. by apply load_content_success in Hload as [? _].
  - destruct (print_red _); [|done]. rewrite bind_return. by intros [= <-].
Qed.

(** *** The name of the saved upload *)

Lemma split_char_app_sep sep a b :
  ∃ h t, PyStr.split_char sep (a +:+ Str sep b) = h :: t ++ PyStr.split_char sep b.
Proof.
  induction a as [|c a (h & t & IH)].
  - rewrite app_empty_l. simpl. rewrite N.eqb_refl. by exists "", [].
  - rewrite app_cons. simpl. rewrite IH. destruct (c =? sep)%N.
    + by exists "", (h :: t).
    + by exists (Str c h), t.
Qed.

Lemma basename_app_slash a b : basename (a +:+ Str 47 b) = basename b.
Proof.
  unfold basename.
  destruct (split_char_app_sep 47 a b) as (h & t & ->).
  destruct (split_char_nonempty 47 b) as (h' & t' & ->).
  rewrite last_cons, last_app.
  by destruct (last (h' :: t')) eqn:E; [|by rewrite last_cons in E; destruct (last t')].
Qed.

Lemma endswith_slash a : PyStr.endswith "/" a = true → ∃ d, a = d +:+ "/".
Proof.
  induction a as [|c a IH]; [done|]. simpl.
  intros [Heq|Hend]%orb_true_iff.
  - apply bool_decide_eq_true in Heq as ->. by exists "".
  - destruct (IH Hend) as [d ->]. by exists (Str c d).
Qed.

(** The saved upload has the base name of the upload. *)
Lemma basename_path_join temp_dir name :
  basename (path_join temp_dir name) = basename name.
Proof.
  unfold path_join.
  destruct (PyStr.startswith "/" name); [done|].
  destruct temp_dir as [|c d]; [done|]. cbn [PyStr.truthy negb orb].
  destruct (PyStr.endswith "/" (Str c d)) eqn:Hend.
  - apply endswith_slash in Hend as [d' ->].
    rewrite app_assoc_str. apply basename_app_slash.
  - apply (basename_app_slash (Str c d) name).
Qed.

(** X22: [handle_file_upload] succeeds exactly when there is a file
    that is not empty, the temporary directory is made, the file is
    saved, [load_document] returns a content that is not empty, and the
    temporary files are removed; it then stores that content, which is
    not blank, as the context, under the base name of the upload.  When
    it fails the context is kept. *)
Theorem upload_outcome (fs : FileSystem) (tmp : TempFiles) (self : AstraAI)
    (uploaded_file : option UploadedFile.t) :
  ((handle_file_upload fs tmp self uploaded_file).2 = true
   ↔ ∃ temp_dir temp_file_path content,
       upload_saved tmp uploaded_file temp_dir temp_file_path
       ∧ (load_document fs self temp_file_path).2 = Return content
       ∧ content ≠ ""
       ∧ remove tmp temp_file_path temp_dir = Return tt)
  ∧ (∀ up,
       (handle_file_upload fs tmp self uploaded_file).2 = true →
       uploaded_file = Some up →
       PyStr.strip (context (handle_file_upload fs tmp self uploaded_file).1) ≠ ""
       ∧ document_name (handle_file_upload fs tmp self uploaded_file).1
         = Some (basename (UploadedFile.name up))
       ∧ ∃ temp_dir,
           mkdtemp tmp = Return temp_dir
           ∧ (load_document fs self (path_join temp_dir (UploadedFile.name up))).2
             = Return (context (handle_file_upload fs tmp self uploaded_file).1))
  ∧ ((handle_file_upload fs tmp self uploaded_file).2 = false →
     context (handle_file_upload fs tmp self uploaded_file).1 = context self).
Proof.
  unfold handle_file_upload, upload_saved.
  destruct uploaded_file as [up|]; simpl.
  2:{ split; [split; [done|by intros (? & ? & ? & (? & ? & _) & _)]|]. by split. }
  destruct (Z.eqb_spec (UploadedFile.size up) 0) as [Hz|Hsize]; simpl.
  { split; [split; [done|]|by split].
    intros (? & ? & ? & (? & [= <-] & ? & _) & _). done. }
  destruct (mkdtemp tmp) as [temp_dir|] eqn:Hdir; simpl.
  2:{ split; [split; [done|]|by split].
      intros (? & ? & ? & (? & _ & _ & ? & _) & _). done. }
  set (path := path_join temp_dir (UploadedFile.name up)).
  destruct (save tmp path) as [[]|] eqn:Hsave; simpl.
  2:{ split; [split; [done|]|by split].
      intros (? & ? & ? & (? & [= <-] & _ & [= <-] & -> & Hs) & _).
      fold path in Hs. by rewrite Hsave in Hs. }
  pose proof (load_document_content fs self path) as Hok.
  pose proof (load_document_frame fs self path) as [e Hframe].
  destruct (load_document fs self path) as [self1 loaded] eqn:Hload.
  simpl in Hframe, Hok. subst self1.
  assert (∀ P : Prop,
            (∃ temp_dir0 temp_file_path content,
                (∃ up0, Some up = Some up0 ∧ UploadedFile.size up0 ≠ 0
                        ∧ Return temp_dir = Return temp_dir0
                        ∧ temp_file_path = path_join temp_dir0 (UploadedFile.name up0)
                        ∧ save tmp temp_file_path = Return tt)
                ∧ (load_document fs self temp_file_path).2 = Return content
                ∧ content ≠ ""
                ∧ remove tmp temp_file_path temp_dir0 = Return tt) →
            (∀ content, loaded = Return content → content ≠ ""
                        → remove tmp path temp_dir = Return tt → P) → P) as Hinv.
  { intros P (? & ? & content & (? & [= <-] & _ & [= <-] & -> & _) & Hl & Hne & Hrm) HP.
    fold path in Hl, Hrm. rewrite Hload in Hl. simpl in Hl. by apply (HP content). }
  destruct loaded as [content|m]; simpl.
  2:{ split; [split; [done|]|by split]. intros Hex. by apply (Hinv _ Hex). }
  destruct (remove tmp path temp_dir) as [[]|] eqn:Hrm; simpl.
  2:{ split; [split; [done|]|by split]. intros Hex. by apply (Hinv _ Hex). }
  destruct content as [|c content]; simpl.
  { split; [split; [done|]|by split]. intros Hex. apply (Hinv _ Hex).
    by intros content [= <-]. }
  split; [split; [intros _|done]|split; [|done]].
  - exists temp_dir, path, (Str c content). split; [by exists up|].
    rewrite Hload. by split_and!.
  - intros up0 _ [= <-]. split; [by apply Hok|]. split.
    + unfold path. by rewrite basename_path_join.
    + exists temp_dir. split; [done|]. fold path. by rewrite Hload.
Qed.

(** X23: when an upload is saved and then fails, in the load or in the
    removal of the temporary files, the document name is the one of the
    failed upload while the context is still the text loaded before:
    the next chat question presents the old text under the new name. *)
Theorem failed_upload_mislabels_context (fs : FileSystem) (tmp : TempFiles)
    (self : AstraAI) (uploaded_file : option UploadedFile.t) (up : UploadedFile.t)
    (temp_dir temp_file_path question : str) :
  uploaded_file = Some up →
  upload_saved tmp uploaded_file temp_dir temp_file_path →
  (handle_file_upload fs tmp self uploaded_file).2 = false →
  context self ≠ "" →
  basename (UploadedFile.name up) ≠ "" →
  document_name (handle_file_upload fs tmp self uploaded_file).1
  = Some (basename (UploadedFile.name up))
  ∧ context (handle_file_upload fs tmp self uploaded_file).1 = context self
  ∧ document_message (basename (UploadedFile.name up)) (context self)
    ∈ _prepare_messages (handle_file_upload fs tmp self uploaded_file).1 question.
Proof.
  intros -> (up0 & [= <-] & Hsize & Hdir & -> & Hsave).
  unfold handle_file_upload.
  destruct (Z.eqb_spec (UploadedFile.size up) 0) as [|_]; [done|].
  rewrite Hdir, Hsave.
  set (path := path_join temp_dir (UploadedFile.name up)).
  pose proof (load_document_frame fs self path) as [e Hframe].
  destruct (load_document fs self path) as [self1 loaded].
  simpl in Hframe. subst self1.
  rewrite <- (basename_path_join temp_dir (UploadedFile.name up)). fold path.
  generalize (basename path). intros base Hfalse Hctx Hname.
  assert (document_name (set_last_error e (set_document_name (Some base) self))
          = Some base
          ∧ context (set_last_error e (set_document_name (Some base) self))
            = context self
          ∧ document_message base (context self)
            ∈ _prepare_messages
                (set_last_error e (set_document_name (Some base) self))
                question) as Hkept.
  { split; [done|]. split; [done|].
    by apply (prepare_messages_document
                (set_last_error e (set_document_name (Some base) self))). }
  destruct loaded as [content|m]; [|done].
  destruct (remove tmp path temp_dir); [|done].
  by destruct (PyStr.truthy content).
Qed.

(** X24: [generate_quiz] succeeds exactly when a context is set, the
    model call returns and the parser finds a question; it then starts
    a session on the parsed questions with progress and score at 0.
    When it does not succeed it only records an error: a running
    session, its progress and its score are kept.  It raises only when
    the model call raised and the console raises on the message. *)
Theorem generate_quiz_outcome (self : AstraAI) (n : Z) (reply : outcome str) :
  ((generate_quiz self n reply).2 = Return true
   ↔ context self ≠ ""
     ∧ ∃ text, reply = Return text ∧ _parse_quiz_response text ≠ [])
  ∧ (∀ text,
       (generate_quiz self n reply).2 = Return true → reply = Return text →
       (generate_quiz self n reply).1
       = set_quiz true (_parse_quiz_response text) 0 0
           (Z.of_nat (length (_parse_quiz_response text))) self)
  ∧ ((generate_quiz self n reply).2 ≠ Return true →
     ∃ e, (generate_quiz self n reply).1 = set_last_error (Some e) self)
  ∧ (∀ m, (generate_quiz self n reply).2 = Raise m →
          ∃ e, reply = Raise e
               ∧ print_red ("Error generating quiz: " +:+ e) = Raise m).
Proof.
  unfold generate_quiz.
  destruct (context self) as [|c ctx]; simpl.
  { split; [split; [done|by intros [? _]]|]. split; [done|]. split; [by eexists|done]. }
  destruct reply as [text|e]; simpl.
  2:{ split; [split|].
      - by destruct (print_red _).
      - by intros (_ & ? & ? & _).
      - split; [by destruct (print_red _)|]. split; [by eexists|].
        intros m Hm. exists e. split; [done|]. revert Hm.
        destruct (print_red _); simpl; [done|by intros [= ->]]. }
  destruct (_parse_quiz_response text) as [|q qs] eqn:Hparse; simpl.
  - split; [split; [done|]|].
    + intros (_ & text' & [= <-] & Hne). by rewrite Hparse in Hne.
    + split; [done|]. split; [by eexists|done].
  - split; [split; [|done]|].
    + intros _. split; [done|]. exists text. by rewrite Hparse.
    + split; [|done]. intros text' _ [= <-]. by rewrite Hparse.
Qed.

End Properties.

(** * The theorems on examples *)

(** The examples are evaluated with the sample tables and the console
    that prints every text. *)
#[local] Existing Instance plain_tables.
#[local] Existing Instance lenient_console.


Lemma submit_answer_feedback_witness :
  ∃ self',
    submit_answer example_session "B" =
    Return (self', (true, "✅ Correct! Basic arithmetic.")).
Proof.
  destruct (submit_answer_feedback example_session "B"
              {| question := "What is 2+2?";
                 options := <["A" := "3"]> (<["B" := "4"]> (<["C" := "5"]> (<["D" := "6"]> ∅)));
                 correct := Some "B";
                 explanation := Some "Basic arithmetic." |}
              "B" "Basic arithmetic.") as [[self' H] _].
  - reflexivity.
  - vm_compute. reflexivity.
  - reflexivity.
  - reflexivity.
  - vm_compute. apply list_elem_of_further, list_elem_of_here.
  - exists self'. exact H.
Defined.

(** The feedback is not the bare explanation: on the example it is the
    explanation behind the verdict. *)
Lemma feedback_is_not_the_bare_explanation :
  feedback_of (submit_answer example_session "b") = Some "✅ Correct! Basic arithmetic."
  ∧ feedback_of (submit_answer example_session "b") ≠ Some "Basic arithmetic.".
Proof. split; [by vm_compute|]. by vm_compute. Qed.

Lemma invalid_label_changes_nothing_witness :
  submit_answer example_session "e" = Return (example_session, (false, "Invalid answer option")).
Proof.
  apply (invalid_label_changes_nothing example_session "e"
           {| question := "What is 2+2?";
              options := <["A" := "3"]> (<["B" := "4"]> (<["C" := "5"]> (<["D" := "6"]> ∅)));
              correct := Some "B";
              explanation := Some "Basic arithmetic." |}).
  - reflexivity.
  - vm_compute. reflexivity.
  - apply (bool_decide_eq_false_1 (PyStr.upper "e" ∈ labels)). by vm_compute.
Defined.

Lemma quiz_session_invariant_witness :
  0 ≤ quiz_progress example_session ≤ total_questions example_session
  ∧ quiz_score example_session ≤ quiz_progress example_session.
Proof.
  destruct (quiz_session_invariant example_session) as (Hp & Hs & _).
  - apply (reach_start with_document 1 (Return example_text)). reflexivity.
  - split; [exact Hp | exact Hs].
Defined.

Lemma new_question_rule_witness :
  ∃ prompt, opens_question ([], None) "  3. Why?  " prompt.
Proof.
  apply (proj1 (new_question_rule ([], None) "  3. Why?  ")). split.
  - exists 51%N, ". Why?". split; reflexivity.
  - exists "3", "Why?". reflexivity.
Defined.

(** The digit need not be followed by ". ": neither [1) Pick one. Now] nor
    [10. What is X?] begins with a digit followed by ". ", and yet each
    opens an accumulator. *)
Lemma dot_blank_need_not_follow_the_digit :
  opens_question ([], None) "1) Pick one. Now" "Now"
  ∧ PyStr.strip "1) Pick one. Now" = "1) Pick one. Now"
  ∧ begins_with_digit_dot_blank "1) Pick one. Now" = false
  ∧ opens_question ([], None) "10. What is X?" "What is X?"
  ∧ PyStr.strip "10. What is X?" = "10. What is X?"
  ∧ begins_with_digit_dot_blank "10. What is X?" = false.
Proof. repeat split; by vm_compute. Qed.

Lemma end_phrase_detection_witness :
  conversation_active
    (after (ask_question (λ _, Return "Hello!") init "ok bye then")) = false.
Proof.
  destruct (end_phrase_detection (λ _, Return "Hello!") init "ok bye then")
    as ([_ Hends] & _ & _ & Hbye & _).
  - reflexivity.
  - exact (Hends Hbye).
Defined.

Lemma context_assembly_witness :
  ∃ recent document,
    model_calls (ask_question (λ _, Return "Four.") with_document "What is 2+2?")
    = [system_message :: recent ++ document ++ [user_message "What is 2+2?"]].
Proof.
  destruct (context_assembly (λ _, Return "Four.") with_document "What is 2+2?")
    as (recent & document & Hcalls & _).
  - by vm_compute.
  - intros H%should_end_spec. by vm_compute in H.
  - exists recent, document. exact Hcalls.
Defined.

Lemma missing_explanation_drops_question_witness :
  length (_parse_quiz_response (unlines (two_questions_open ++ last_explanation :: [""])))
  = S (length (_parse_quiz_response (unlines (two_questions_open ++ [""])))).
Proof.
  destruct (missing_explanation_drops_question two_questions_open last_explanation [""]
              {| question := "What is 1+1?";
                 options := <["A" := "1"]> (<["B" := "2"]> (<["C" := "3"]> (<["D" := "4"]> ∅)));
                 correct := Some "B";
                 explanation := Some "One more than one." |})
    as (later & _ & _ & _ & Hlen).
  - repeat constructor.
  - reflexivity.
  - by vm_compute.
  - reflexivity.
  - exact Hlen.
Defined.

(** Without the proviso the count need not drop: when another
    [EXPLANATION:] line follows, the response parses to one question, whose explanation comes from
    the first of the two lines, and still to one question without that
    line. *)
Lemma second_explanation_line_takes_over :
  length (_parse_quiz_response
            (unlines (one_question_open ++ "EXPLANATION: Basic arithmetic."
                      :: ["EXPLANATION: It is four."]))) = 1%nat
  ∧ map explanation
      (_parse_quiz_response
         (unlines (one_question_open ++ "EXPLANATION: Basic arithmetic."
                   :: ["EXPLANATION: It is four."])))
    = [Some "Basic arithmetic."]
  ∧ length (_parse_quiz_response
              (unlines (one_question_open ++ ["EXPLANATION: It is four."]))) = 1%nat.
Proof. split; [|split]; by vm_compute. Qed.

Lemma validate_iff_well_formed_witness :
  _validate_question (fresh_question "What is 2+2?") = false.
Proof.
  destruct (_validate_question (fresh_question "What is 2+2?")) eqn:E; [|done].
  apply (proj1 (validate_iff_well_formed _)) in E.
  destruct E as (_ & (c & Hc & _) & _). discriminate Hc.
Defined.

Lemma preamble_is_ignored_witness :
  _parse_quiz_response
    (unlines (["Here is your quiz:"; "A) stray"; "EXPLANATION: none"]
              ++ one_question_open ++ ["EXPLANATION: Basic arithmetic."]))
  = _parse_quiz_response (unlines (one_question_open ++ ["EXPLANATION: Basic arithmetic."])).
Proof.
  apply (preamble_is_ignored ["Here is your quiz:"; "A) stray"; "EXPLANATION: none"]).
  - repeat constructor.
  - repeat constructor.
Defined.

Lemma layout_is_ignored_witness :
  _parse_quiz_response
    (unlines (filter (λ l, l ≠ "")
                (PyStr.strip <$> ["   1. What is 2+2?  "; ""; "  A) 3"; "B) 4 "; "C) 5";
                                  "D) 6"; "   "; "CORRECT: B";
                                  "  EXPLANATION: Basic arithmetic."])))
  = _parse_quiz_response
      (unlines ["   1. What is 2+2?  "; ""; "  A) 3"; "B) 4 "; "C) 5";
                "D) 6"; "   "; "CORRECT: B"; "  EXPLANATION: Basic arithmetic."]).
Proof. apply layout_is_ignored. repeat constructor. Defined.

Lemma formatted_quiz_round_trip_witness :
  _parse_quiz_response (render_quiz [("1", sample_item); ("12", sample_item)])
  = [item_question sample_item; item_question sample_item].
Proof.
  apply (formatted_quiz_round_trip [("1", sample_item); ("12", sample_item)]).
  repeat constructor; try done; try (apply bool_decide_unpack; by vm_compute).
Defined.

Lemma score_counts_correct_answers_witness :
  ∃ self' outcomes,
    submit_all example_session ["x"; "b"; "a"] = Return (self', outcomes)
    ∧ length outcomes = 3%nat
    ∧ quiz_score self' = quiz_score example_session + count_true outcomes.
Proof.
  destruct (score_counts_correct_answers example_session ["x"; "b"; "a"])
    as (self' & outcomes & H & Hlen & Hscore & _).
  - exact example_session_reachable.
  - exists self', outcomes. split; [exact H|]. split; [exact Hlen|exact Hscore].
Defined.

Lemma all_correct_scores_full_witness :
  ∃ self',
    submit_all four_session ["b"; "B"; "b"; "B"] = Return (self', [true; true; true; true])
    ∧ quiz_score self' = total_questions self'.
Proof.
  destruct (all_correct_scores_full with_document four_session 4 (Return four_text)
              ["b"; "B"; "b"; "B"]) as (self' & H & Hscore & _).
  - reflexivity.
  - repeat constructor.
  - exists self'. split; [exact H | exact Hscore].
Defined.

Lemma submit_answer_always_answers_witness :
  ∃ self' ok feedback,
    submit_answer example_session "c" = Return (self', (ok, feedback))
    ∧ feedback ≠ "No current question".
Proof.
  apply (submit_answer_always_answers example_session "c").
  exact example_session_reachable.
Defined.

Lemma current_question_is_next_witness :
  ∃ q, get_current_question example_session = Return (Some q) ∧ well_formed q.
Proof.
  destruct (current_question_is_next example_session example_session_reachable)
    as [Hon _].
  destruct (Hon eq_refl) as (q & Hq & _ & Hwf).
  exists q. split; [exact Hq|exact Hwf].
Defined.

Lemma status_is_consistent_witness :
  Status.remaining (get_quiz_status example_session) = 1.
Proof.
  destruct (status_is_consistent example_session example_session_reachable) as [-> _].
  reflexivity.
Defined.

Lemma streak_is_always_zero_witness :
  Status.current_streak (get_quiz_status example_session) = 0.
Proof. apply (streak_is_always_zero example_session). exact example_session_reachable. Defined.

Lemma history_is_made_of_exchanges_witness :
  ∃ exchanges,
    chat_history (after (ask_question (λ _, Return "Four.") with_document "What is 2+2?"))
    = turns exchanges.
Proof.
  destruct (history_is_made_of_exchanges
              (after (ask_question (λ _, Return "Four.") with_document "What is 2+2?")))
    as (exchanges & H & _).
  - apply (reach_astra with_document (DoAsk (λ _, Return "Four.") "What is 2+2?"));
      [|reflexivity].
    apply (reach_astra init (DoUpload sample_files sample_temp (Some sample_upload)));
      [apply reach_init|by vm_compute].
  - by exists exchanges.
Defined.

Lemma reset_restores_initial_state_witness : reset_conversation example_session = init.
Proof. apply reset_restores_initial_state. exact example_session_reachable. Defined.

Lemma recent_turns_cut_an_exchange_witness :
  ∃ rest,
    _prepare_messages
      (set_chat_history (turns [("What is 2+2?", "Four."); ("And 1+1?", "Two.")]) init)
      "And 3+3?"
    = system_message :: assistant_message "Four." :: user_message "And 1+1?"
      :: assistant_message "Two." :: rest.
Proof.
  apply (recent_turns_cut_an_exchange _ _ [] "What is 2+2?" "Four." "And 1+1?" "Two.").
  reflexivity.
Defined.


Lemma answer_is_returned_and_stored_witness :
  answer_text (ask_question (λ _, Return (Str 160 " ")) with_document "What is 2+2?")
  = Return (Str 160 " ")
  ∧ after (ask_question (λ _, Return (Str 160 " ")) with_document "What is 2+2?")
    = with_document.
Proof.
  destruct (answer_is_returned_and_stored (λ _, Return (Str 160 " ")) with_document
              "What is 2+2?" (Str 160 " ")) as [H1 H2].
  - by vm_compute.
  - intros H%should_end_spec. by vm_compute in H.
  - reflexivity.
  - split; [exact H1 | exact H2].
Defined.



Lemma upload_outcome_witness :
  document_name (handle_file_upload sample_files sample_temp init (Some sample_upload)).1
  = Some "sums.txt"
  ∧ context (handle_file_upload sample_files sample_temp init (Some sample_upload)).1
    = "Two and two make four.".
Proof.
  destruct (proj1 (proj2 (upload_outcome sample_files sample_temp init (Some sample_upload)))
              sample_upload) as (_ & Hname & _).
  - reflexivity.
  - reflexivity.
  - split; [exact Hname | reflexivity].
Defined.

Lemma failed_upload_mislabels_context_witness :
  document_message "notes.md" "Two and two make four."
  ∈ _prepare_messages
      (handle_file_upload sample_files sample_temp with_document
         (Some {| UploadedFile.name := "notes.md"; UploadedFile.size := 9 |})).1
      "What is 2+2?".
Proof.
  apply (failed_upload_mislabels_context sample_files sample_temp with_document
           (Some {| UploadedFile.name := "notes.md"; UploadedFile.size := 9 |})
           {| UploadedFile.name := "notes.md"; UploadedFile.size := 9 |}
           "/docs" "/docs/notes.md" "What is 2+2?").
  - reflexivity.
  - exists {| UploadedFile.name := "notes.md"; UploadedFile.size := 9 |}.
    split; [reflexivity|]. split; [done|]. split; [reflexivity|].
    split; reflexivity.
  - reflexivity.
  - done.
  - by vm_compute.
Defined.

Lemma generate_quiz_outcome_witness :
  ∃ e, (generate_quiz example_session 3 (Raise "timeout")).1
       = set_last_error (Some e) example_session.
Proof.
  apply (proj1 (proj2 (proj2 (generate_quiz_outcome example_session 3 (Raise "timeout"))))).
  by vm_compute.
Defined.

(** ** The console raises *)

(** With the model error [[/INST]] and a console that refuses the
    closing tag, [ask_question] records the error and then raises
    instead of returning the apology. *)
Example console_error_leaves_ask_question :
  answer_text (@ask_question plain_tables strict_console (λ _, Raise "[/INST]")
                 with_document "What is 2+2?")
  = Raise "closing tag does not match any open tag"
  ∧ last_error (after (@ask_question plain_tables strict_console (λ _, Raise "[/INST]")
                         with_document "What is 2+2?"))
    = Some "Error generating response: [/INST]".
Proof. by vm_compute. Qed.

(** A missing file under a directory named with a square bracket: the
    path is part of the message, the console refuses it, and
    [load_document] raises with the document renamed and the error
    recorded. *)
Example console_error_leaves_load_document :
  (@load_document plain_tables strict_console missing_files with_document
     "/tmp/up/[/b].txt").2
  = Raise "closing tag does not match any open tag"
  ∧ document_name
      (@load_document plain_tables strict_console missing_files with_document
         "/tmp/up/[/b].txt").1
    = Some "b].txt"
  ∧ last_error
      (@load_document plain_tables strict_console missing_files with_document
         "/tmp/up/[/b].txt").1
    = Some "[Errno 2] No such file or directory: '/tmp/up/[/b].txt'".
Proof. by vm_compute. Qed.

(** The same for [generate_quiz]. *)
Example console_error_leaves_generate_quiz :
  @generate_quiz plain_tables strict_console with_document 5 (Raise "[/INST]")
  = (set_last_error (Some "Quiz generation error: [/INST]") with_document,
     Raise "closing tag does not match any open tag").
Proof. by vm_compute. Qed.
